(** * Job lifecycle client of the automated visualization module

    A shallow embedding of the React component [AutomatedVisualizationModule]
    and of its [ResultsViewer] child (VisualizationModule.jsx): form
    validation, job submission, the WebSocket handler with its polling
    fallback, cancellation, preview loading and export.

    The component is event driven and single threaded.  Its state (the
    [useState] cells, [wsRef], the sockets and interval timers it created,
    the HTTP requests it has issued) is one record, [World]; each handler
    is a function on worlds, and an [await] splits a handler into the part
    that issues the request and the continuation that runs when the
    request settles. *)

From stdpp Require Import gmap strings list fin_maps.
From Stdlib Require Import ZArith QArith Ascii.

Local Close Scope Q_scope.
Local Open Scope string_scope.
Local Open Scope list_scope.

(** ** JavaScript values as the component uses them *)

Module Js.

(** Values that travel through the job state.  Numbers are the integers
    (JSON progress values); [VObj] stands for any object or array, whose
    contents the component never inspects. *)
Inductive value : Type :=
  | VUndefined
  | VNull
  | VBool (b : bool)
  | VNum (n : Z)
  | VStr (s : string)
  | VObj.

#[global] Instance value_eq_dec : EqDecision value.
Proof. solve_decision. Defined.

(** ToBoolean. *)
Definition truthy (v : value) : bool :=
  match v with
  | VUndefined | VNull => false
  | VBool b => b
  | VNum n => negb (n =? 0)%Z
  | VStr s => negb (String.eqb s "")
  | VObj => true
  end.

(** [a || b] *)
Definition or_else (a b : value) : value := if truthy a then a else b.

(** [v === 'lit'] for a string literal. *)
Definition is_str (v : value) (lit : string) : bool :=
  match v with
  | VStr s => String.eqb s lit
  | _ => false
  end.

(** A plain object used as a record: a finite map from property names. *)
Abbreviation object := (gmap string value).

(** Property read [o.k]; an absent property reads as [undefined]. *)
Definition prop (o : object) (k : string) : value := default VUndefined (o !! k).

(** Strings are sequences of bytes, the UTF-8 encoding of the text. *)
Definition byte (c : ascii) : N := N_of_ascii c.

(** The white space of ECMAScript (WhiteSpace and LineTerminator, which
    is what [trim] strips and what [\s] matches): the six ASCII characters
    of [Ascii.is_space], U+00A0 in two bytes, and in three bytes U+1680,
    U+2000 to U+200A, U+2028, U+2029, U+202F, U+205F, U+3000 and U+FEFF. *)
Definition ws2 (c1 c2 : ascii) : bool :=
  ((byte c1 =? 194) && (byte c2 =? 160))%N.

Definition ws3 (c1 c2 c3 : ascii) : bool :=
  (((byte c1 =? 225) && (byte c2 =? 154) && (byte c3 =? 128)) ||
   ((byte c1 =? 226) && (byte c2 =? 128) &&
      (((128 <=? byte c3) && (byte c3 <=? 138)) ||
       (byte c3 =? 168) || (byte c3 =? 169) || (byte c3 =? 175))) ||
   ((byte c1 =? 226) && (byte c2 =? 129) && (byte c3 =? 159)) ||
   ((byte c1 =? 227) && (byte c2 =? 128) && (byte c3 =? 128)) ||
   ((byte c1 =? 239) && (byte c2 =? 187) && (byte c3 =? 191)))%N.

(** The rest of the string after its first character, when that
    character is white space. *)
Definition ws_prefix (s : string) : option string :=
  match s with
  | String c1 s1 =>
      if Ascii.is_space c1 then Some s1 else
      match s1 with
      | String c2 s2 =>
          if ws2 c1 c2 then Some s2 else
          match s2 with
          | String c3 s3 => if ws3 c1 c2 c3 then Some s3 else None
          | EmptyString => None
          end
      | EmptyString => None
      end
  | EmptyString => None
  end.

(** The string without its leading white space. *)
Fixpoint ltrim (s : string) : string :=
  match s with
  | String c1 s1 =>
      if Ascii.is_space c1 then ltrim s1 else
      match s1 with
      | String c2 s2 =>
          if ws2 c1 c2 then ltrim s2 else
          match s2 with
          | String c3 s3 => if ws3 c1 c2 c3 then ltrim s3 else s
          | EmptyString => s
          end
      | EmptyString => s
      end
  | EmptyString => EmptyString
  end.

(** The string is made of white space only. *)
Fixpoint all_space (s : string) : bool :=
  match s with
  | String c1 s1 =>
      if Ascii.is_space c1 then all_space s1 else
      match s1 with
      | String c2 s2 =>
          if ws2 c1 c2 then all_space s2 else
          match s2 with
          | String c3 s3 => if ws3 c1 c2 c3 then all_space s3 else false
          | EmptyString => false
          end
      | EmptyString => false
      end
  | EmptyString => true
  end.

(** The string without its trailing white space. *)
Fixpoint rtrim (s : string) : string :=
  if all_space s then EmptyString
  else match s with
       | String c s' => String c (rtrim s')
       | EmptyString => EmptyString
       end.

(** [String.prototype.trim] *)
Definition trim (s : string) : string := rtrim (ltrim s).

(** [s.replace(/\s+/g, '_')]: every maximal run of white space becomes
    one underscore.  [in_run] tells whether the previous character was
    white space, in which case the underscore of the run is already
    written. *)
Definition emit (in_run : bool) (t : string) : string :=
  if in_run then t else String "_"%char t.

Fixpoint replace_ws_go (in_run : bool) (s : string) : string :=
  match s with
  | String c1 s1 =>
      if Ascii.is_space c1 then emit in_run (replace_ws_go true s1) else
      match s1 with
      | String c2 s2 =>
          if ws2 c1 c2 then emit in_run (replace_ws_go true s2) else
          match s2 with
          | String c3 s3 =>
              if ws3 c1 c2 c3 then emit in_run (replace_ws_go true s3)
              else String c1 (replace_ws_go false s1)
          | EmptyString => String c1 (replace_ws_go false s1)
          end
      | EmptyString => String c1 (replace_ws_go false s1)
      end
  | EmptyString => EmptyString
  end.

Definition replace_ws (s : string) : string := replace_ws_go false s.

End Js.

Import Js.

(** ** State of the component *)

(** [analysisParams].  The geometry is a GeoJSON object or [null]; only
    its presence is ever tested. *)
Record AnalysisParams : Type := mkParams {
  regionName : string;
  startDate : string;
  endDate : string;
  analysisType : string;
  geometry : option object
}.

(** [jobStatus].  All four fields can receive values taken verbatim from
    a server response, hence [value]. *)
Record JobStatus : Type := mkJob {
  status : value;
  progress : value;
  message : value;
  jobId : value
}.

#[global] Instance JobStatus_eq_dec : EqDecision JobStatus.
Proof. solve_decision. Defined.

(** [{ status: 'idle', progress: 0, message: '', jobId: null }] *)
Definition idle_job : JobStatus :=
  mkJob (VStr "idle") (VNum 0) (VStr "") VNull.

(** A [WebSocket] the component constructed: the job id its handlers
    captured, and whether the connection is still open. *)
Record Socket : Type := mkSocket {
  ws_job : value;
  ws_open : bool
}.

(** A timer created by [setInterval] in [pollJobStatus]: the job id its
    callback captured, and whether it has not been cleared. *)
Record Timer : Type := mkTimer {
  t_job : value;
  t_active : bool
}.

(** HTTP requests.  Each constructor carries what the continuation after
    the [await] still needs from its closure. *)
Inductive request : Type :=
  | PostGenerate (p : AnalysisParams)
      (* POST  ${apiBaseUrl}/visualization/generate *)
  | GetStatus (timer : nat) (job : value)
      (* GET   ${apiBaseUrl}/visualization/jobs/${jobId}/status *)
  | GetPreview (job : value)
      (* GET   ${apiBaseUrl}/visualization/jobs/${jobId}/preview *)
  | PostCancel (job : value)
      (* POST  ${apiBaseUrl}/visualization/jobs/${jobId}/cancel *)
  | PostExport (viewer : nat) (job : value) (format : string) (resolution : Z)
      (* POST  ${apiBaseUrl}/visualization/export, issued by the mounted
         instance [viewer] of ResultsViewer *).

(** Exceptions a handler can let escape. *)
Inductive exn : Type := SyntaxError | TypeError.

(** How a request settles.  A response is told by what the component can
    see of its body: [Resolved data] is a body that is an object, or any
    other truthy value, with the properties [data] (a number, a string or
    [true] has none of the properties read here); [ResolvedFalsy] is a
    body that is falsy but not nullish (the empty string of an empty
    body, 0, [false]), on which every property reads as [undefined];
    [ResolvedNullish] is a body that is [null] or [undefined], on which a
    property read throws.  Of a rejection only
    [error.response?.data?.detail] is read. *)
Inductive response : Type :=
  | Resolved (data : object)
  | ResolvedFalsy
  | ResolvedNullish
  | Rejected (detail : value).

(** The properties of a body that has some. *)
Definition props (r : response) : object :=
  match r with
  | Resolved data => data
  | _ => ∅
  end.

(** The world.  The form contents are part of it, but the editing of the
    form is outside this development, so [analysisParams] is what the user
    had entered when the run starts.  [new WebSocket] is taken not to
    throw.  [results] is [None] when the stored value is falsy (the initial
    [null], or a falsy preview body), in which case ResultsViewer is not
    mounted, and [Some o] when it is truthy with the properties [o].
    [isExporting] is the state of the mounted instance of ResultsViewer,
    and [viewer] numbers the instances: it grows at each unmount. *)
Record World : Type := mkWorld {
  analysisParams : AnalysisParams;
  jobStatus : JobStatus;
  results : option object;          (* null, or the stored preview body *)
  errors : object;
  isExporting : bool;               (* state of ResultsViewer *)
  wsRef : option nat;               (* wsRef.current: index in [sockets] *)
  sockets : list Socket;            (* every WebSocket constructed so far *)
  timers : list Timer;              (* every interval created so far *)
  inflight : list request;          (* requests issued and not yet settled *)
  sent : list request;              (* every request issued, oldest first *)
  console : list string;            (* console.error messages *)
  downloads : list string;          (* file names handed to the browser *)
  alerts : list string;
  uncaught : list exn;               (* exceptions no handler caught *)
  viewer : nat                       (* the instance of ResultsViewer *)
}.

(** Field updates. *)
Definition set_jobStatus (f : JobStatus -> JobStatus) (w : World) : World :=
  mkWorld (analysisParams w) (f (jobStatus w)) (results w) (errors w)
    (isExporting w) (wsRef w) (sockets w) (timers w) (inflight w) (sent w)
    (console w) (downloads w) (alerts w) (uncaught w) (viewer w).

Definition set_results (r : option object) (w : World) : World :=
  mkWorld (analysisParams w) (jobStatus w) r (errors w)
    (isExporting w) (wsRef w) (sockets w) (timers w) (inflight w) (sent w)
    (console w) (downloads w) (alerts w) (uncaught w) (viewer w).

Definition set_errors (e : object) (w : World) : World :=
  mkWorld (analysisParams w) (jobStatus w) (results w) e
    (isExporting w) (wsRef w) (sockets w) (timers w) (inflight w) (sent w)
    (console w) (downloads w) (alerts w) (uncaught w) (viewer w).

Definition set_isExporting (b : bool) (w : World) : World :=
  mkWorld (analysisParams w) (jobStatus w) (results w) (errors w)
    b (wsRef w) (sockets w) (timers w) (inflight w) (sent w)
    (console w) (downloads w) (alerts w) (uncaught w) (viewer w).

Definition set_wsRef (r : option nat) (w : World) : World :=
  mkWorld (analysisParams w) (jobStatus w) (results w) (errors w)
    (isExporting w) r (sockets w) (timers w) (inflight w) (sent w)
    (console w) (downloads w) (alerts w) (uncaught w) (viewer w).

Definition set_sockets (f : list Socket -> list Socket) (w : World) : World :=
  mkWorld (analysisParams w) (jobStatus w) (results w) (errors w)
    (isExporting w) (wsRef w) (f (sockets w)) (timers w) (inflight w) (sent w)
    (console w) (downloads w) (alerts w) (uncaught w) (viewer w).

Definition set_timers (f : list Timer -> list Timer) (w : World) : World :=
  mkWorld (analysisParams w) (jobStatus w) (results w) (errors w)
    (isExporting w) (wsRef w) (sockets w) (f (timers w)) (inflight w) (sent w)
    (console w) (downloads w) (alerts w) (uncaught w) (viewer w).

Definition set_inflight (f : list request -> list request) (w : World) : World :=
  mkWorld (analysisParams w) (jobStatus w) (results w) (errors w)
    (isExporting w) (wsRef w) (sockets w) (timers w) (f (inflight w)) (sent w)
    (console w) (downloads w) (alerts w) (uncaught w) (viewer w).

(** Issuing a request: it becomes outstanding and enters the history. *)
Definition issue (r : request) (w : World) : World :=
  mkWorld (analysisParams w) (jobStatus w) (results w) (errors w)
    (isExporting w) (wsRef w) (sockets w) (timers w)
    (inflight w ++ [r]) (sent w ++ [r])
    (console w) (downloads w) (alerts w) (uncaught w) (viewer w).

(** [console.error(msg, ...)] *)
Definition console_error (msg : string) (w : World) : World :=
  mkWorld (analysisParams w) (jobStatus w) (results w) (errors w)
    (isExporting w) (wsRef w) (sockets w) (timers w) (inflight w) (sent w)
    (console w ++ [msg]) (downloads w) (alerts w) (uncaught w) (viewer w).

Definition save_file (name : string) (w : World) : World :=
  mkWorld (analysisParams w) (jobStatus w) (results w) (errors w)
    (isExporting w) (wsRef w) (sockets w) (timers w) (inflight w) (sent w)
    (console w) (downloads w ++ [name]) (alerts w) (uncaught w) (viewer w).

Definition alert (msg : string) (w : World) : World :=
  mkWorld (analysisParams w) (jobStatus w) (results w) (errors w)
    (isExporting w) (wsRef w) (sockets w) (timers w) (inflight w) (sent w)
    (console w) (downloads w) (alerts w ++ [msg]) (uncaught w) (viewer w).

(** The component as first rendered. *)
Definition initial_world (p : AnalysisParams) : World :=
  mkWorld p idle_job None ∅ false None [] [] [] [] [] [] [] [] 0.

(** ResultsViewer is unmounted: its state is gone, and the next instance
    starts with [isExporting] false. *)
Definition unmount_viewer (w : World) : World :=
  mkWorld (analysisParams w) (jobStatus w) (results w) (errors w)
    false (wsRef w) (sockets w) (timers w) (inflight w) (sent w)
    (console w) (downloads w) (alerts w) (uncaught w) (S (viewer w)).

(** [setResults(r)], with what the rendering makes of it: a falsy value
    unmounts ResultsViewer, a truthy value mounts it if it was not. *)
Definition store_results (r : option object) (w : World) : World :=
  match r, results w with
  | None, _ => unmount_viewer (set_results None w)
  | Some _, None => set_isExporting false (set_results r w)
  | Some _, Some _ => set_results r w
  end.

(** An exception left a handler: the browser reports it and goes on. *)
Definition report_uncaught (e : exn) (w : World) : World :=
  mkWorld (analysisParams w) (jobStatus w) (results w) (errors w)
    (isExporting w) (wsRef w) (sockets w) (timers w) (inflight w) (sent w)
    (console w) (downloads w) (alerts w) (uncaught w ++ [e]) (viewer w).

(** ** The handlers *)

(** What [JSON.parse] can return for a frame: [null], on which a property
    read throws, or a value whose properties can be read (an object; a
    number, string, boolean or array reads every property used here as
    [undefined], so it decodes to the empty map). *)
Inductive decoded : Type :=
  | DecNull
  | DecObj (o : object).

(** Outcome of a synchronous handler. *)
Inductive outcome : Type :=
  | Returns (w : World)
  | Throws (e : exn).

(** [1000 * 60 * 60 * 24] *)
Definition day_ms : Z := 1000 * 60 * 60 * 24.

(** [start >= end] on two [Date]s; an Invalid Date compares false. *)
Definition date_ge (start end_ : option Z) : bool :=
  match start, end_ with
  | Some s, Some e => (e <=? s)%Z
  | _, _ => false
  end.

(** [(end - start) / (1000 * 60 * 60 * 24) > 366], the quotient taken in
    the rationals: time values are integers of magnitude below 2^53 and
    the divisor is far from the rounding error of a double near 366, so
    the floating-point test gives the same answer.  With an Invalid Date
    the quotient is NaN and the test is false. *)
Definition range_exceeds (start end_ : option Z) : bool :=
  match start, end_ with
  | Some s, Some e =>
      let daysDiff := (inject_Z (e - s) / inject_Z day_ms)%Q in
      negb (Qle_bool daysDiff (inject_Z 366))
  | _, _ => false
  end.

(** ** Observations *)

Definition is_preview (r : request) : bool :=
  match r with GetPreview _ => true | _ => false end.

Definition is_status (r : request) : bool :=
  match r with GetStatus _ _ => true | _ => false end.

(** Preview requests issued so far. *)
Definition preview_fetches (w : World) : nat :=
  length (List.filter is_preview (sent w)).

(** Status requests issued and not yet settled. *)
Definition outstanding_polls (w : World) : nat :=
  length (List.filter is_status (inflight w)).

Definition open_sockets (w : World) : nat :=
  length (List.filter ws_open (sockets w)).

Definition active_timers (w : World) : nat :=
  length (List.filter t_active (timers w)).

(** Active subscriptions: open push channels and running polling timers. *)
Definition subscriptions (w : World) : nat := open_sockets w + active_timers w.

(** Built-ins of the host, which the component calls and this development
    does not define.  [Date_parse s] is the time value of [new Date(s)] in
    milliseconds, [None] for an Invalid Date; [JSON_parse s] is [None] when
    [JSON.parse(s)] throws a SyntaxError; [parseInt] is applied to the
    value of the resolution select. *)
Class Host : Type := {
  Date_parse : string → option Z;
  JSON_parse : string → option decoded;
  parseInt : string → Z
}.

Section Component.

Context {browser : Host}.

Definition validateForm (p : AnalysisParams) : object :=
  let errs : object := ∅ in
  let errs :=
    if String.eqb (trim (regionName p)) ""
    then <["regionName" := VStr "Region name is required"]> errs else errs in
  let errs :=
    if String.eqb (startDate p) ""
    then <["startDate" := VStr "Start date is required"]> errs else errs in
  let errs :=
    if String.eqb (endDate p) ""
    then <["endDate" := VStr "End date is required"]> errs else errs in
  let errs :=
    if negb (String.eqb (startDate p) "") && negb (String.eqb (endDate p) "")
    then
      let start := Date_parse (startDate p) in
      let end_ := Date_parse (endDate p) in
      let errs :=
        if date_ge start end_
        then <["endDate" := VStr "End date must be after start date"]> errs
        else errs in
      if range_exceeds start end_
      then <["endDate" := VStr "Date range cannot exceed 366 days"]> errs
      else errs
    else errs in
  match geometry p with
  | None => <["geometry" := VStr "Please define an analysis area on the map"]> errs
  | Some _ => errs
  end.

(** [new WebSocket(wsUrl)] stored in [wsRef.current], with the two
    handlers below attached; the previous value of [wsRef.current] is
    overwritten. *)
Definition startWebSocketConnection (job : value) (w : World) : World :=
  set_wsRef (Some (length (sockets w)))
    (set_sockets (fun l => l ++ [mkSocket job true]) w).

(** [loadJobResults], up to its [await]. *)
Definition loadJobResults (job : value) (w : World) : World :=
  issue (GetPreview job) w.

(** [loadJobResults], after the preview request settled. *)
Definition loadJobResults_settled (r : response) (w : World) : World :=
  match r with
  | Resolved data => store_results (Some data) w
  | ResolvedFalsy | ResolvedNullish => store_results None w
  | Rejected _ => console_error "Failed to load results:" w
  end.

(** [wsRef.current.onmessage], for the socket opened for [job]. *)
Definition onmessage (job : value) (payload : string) (w : World) : outcome :=
  match JSON_parse payload with
  | None => Throws SyntaxError
  | Some DecNull => Throws TypeError
  | Some (DecObj data) =>
      if is_str (prop data "type") "progress_update" then
        Returns (set_jobStatus (fun prev =>
          mkJob (VStr "running") (prop data "progress") (prop data "message")
                (jobId prev)) w)
      else if is_str (prop data "type") "job_completed" then
        Returns (loadJobResults job (set_jobStatus (fun prev =>
          mkJob (VStr "completed") (VNum 100)
                (VStr "Analysis completed successfully") (jobId prev)) w))
      else if is_str (prop data "type") "job_failed" then
        Returns (set_jobStatus (fun prev =>
          mkJob (VStr "failed") (progress prev)
                (or_else (prop data "message") (VStr "Analysis failed"))
                (jobId prev)) w)
      else Returns w
  end.

(** [pollJobStatus]: [setInterval(..., 2000)]; the handle is the index of
    the new timer. *)
Definition pollJobStatus (job : value) (w : World) : World :=
  set_timers (fun l => l ++ [mkTimer job true]) w.

(** [wsRef.current.onerror] *)
Definition onerror (job : value) (w : World) : World := pollJobStatus job w.

Definition clearInterval (timer : nat) (w : World) : World :=
  set_timers (alter (fun t => mkTimer (t_job t) false) timer) w.

(** The interval callback, up to its [await]. *)
Definition poll_tick (timer : nat) (job : value) (w : World) : World :=
  issue (GetStatus timer job) w.

(** The interval callback, after the status request settled. *)
Definition poll_settled (timer : nat) (job : value) (r : response) (w : World)
  : World :=
  match r with
  | Resolved _ | ResolvedFalsy =>
      let st := props r in
      let w := set_jobStatus (fun _ =>
        mkJob (prop st "status") (prop st "progress") (prop st "message") job) w in
      if is_str (prop st "status") "completed" then
        loadJobResults job (clearInterval timer w)
      else if is_str (prop st "status") "failed" then
        clearInterval timer w
      else w
  | ResolvedNullish | Rejected _ =>
      (* [status.status] on a nullish body throws inside the [try] *)
      console_error "Failed to poll job status:" w
  end.

(** [handleAnalysisSubmit], up to its [await]. *)
Definition handleAnalysisSubmit (w : World) : World :=
  let validationErrors := validateForm (analysisParams w) in
  if (0 <? size validationErrors)%nat
  then set_errors validationErrors w
  else issue (PostGenerate (analysisParams w)) (set_errors ∅ w).

(** [handleAnalysisSubmit], after the generate request settled. *)
Definition handleAnalysisSubmit_settled (r : response) (w : World) : World :=
  match r with
  | Resolved _ | ResolvedFalsy =>
      let job_id := prop (props r) "job_id" in
      startWebSocketConnection job_id
        (set_jobStatus (fun _ =>
           mkJob (VStr "pending") (VNum 0) (VStr "Starting analysis...") job_id) w)
  | ResolvedNullish =>
      (* the destructuring of a nullish body throws inside the [try]; the
         error caught has no [response] *)
      set_errors {[ "submit" := or_else VUndefined (VStr "Failed to start analysis") ]}
        (console_error "Failed to start analysis:" w)
  | Rejected detail =>
      set_errors {[ "submit" := or_else detail (VStr "Failed to start analysis") ]}
        (console_error "Failed to start analysis:" w)
  end.

(** [if (wsRef.current) wsRef.current.close()] *)
Definition close_current (w : World) : World :=
  match wsRef w with
  | Some k => set_sockets (alter (fun s => mkSocket (ws_job s) false) k) w
  | None => w
  end.

(** [handleCancelJob], up to its [await]. *)
Definition handleCancelJob (w : World) : World :=
  if truthy (jobId (jobStatus w))
  then issue (PostCancel (jobId (jobStatus w))) w
  else w.

(** [handleCancelJob], after the cancel request settled. *)
Definition handleCancelJob_settled (r : response) (w : World) : World :=
  match r with
  | Resolved _ | ResolvedFalsy | ResolvedNullish =>
      close_current (set_jobStatus (fun _ => idle_job) w)
  | Rejected _ => console_error "Failed to cancel job:" w
  end.

(** The file name of an export. *)
Definition export_filename (p : AnalysisParams) (format : string) : string :=
  replace_ws (regionName p) +:+ "_analysis_" +:+ startDate p +:+ "." +:+ format.

(** [downloadMap] of [ResultsViewer], up to its [await]; [res] is the
    [results] prop. *)
Definition downloadMap (res : object) (format resolution : string) (w : World)
  : World :=
  if negb (truthy (prop res "job_id")) then w
  else issue (PostExport (viewer w) (prop res "job_id") format (parseInt resolution))
         (set_isExporting true w).

(** [downloadMap], after the export request settled.  The file is saved,
    or the failure reported, whatever became of the instance [inst] of
    ResultsViewer that issued the request; the [setIsExporting(false)] of
    the [finally] reaches that instance only, so it is lost when the
    instance has been unmounted. *)
Definition downloadMap_settled (format : string) (inst : nat) (r : response)
    (w : World) : World :=
  let w' :=
    match r with
    | Resolved _ | ResolvedFalsy | ResolvedNullish =>
        save_file (export_filename (analysisParams w) format) w
    | Rejected _ =>
        alert "Export failed. Please try again." (console_error "Export failed:" w)
    end in
  if Nat.eqb inst (viewer w) then set_isExporting false w' else w'.

(** ** Rendering conditions and the event loop *)

(** [jobStatus.status === 'running' || jobStatus.status === 'pending']:
    the form controls are disabled, and [JobProgressPanel] with its cancel
    button is rendered, exactly under this condition. *)
Definition isRunning (j : JobStatus) : bool :=
  is_str (status j) "running" || is_str (status j) "pending".

(** What the environment can do next. *)
Inductive event : Type :=
  | ClickGenerate
  | ClickCancel
  | ClickTryAgain
  | ClickDownload (format resolution : string)
  | WsMessage (sock : nat) (payload : string)   (* a frame arrives *)
  | WsError (sock : nat)                        (* the connection fails *)
  | TimerTick (timer : nat)                     (* 2000 ms have elapsed *)
  | Settle (i : nat) (r : response).            (* the i-th outstanding request settles *)

(** The continuation registered by the [await] that issued [req]. *)
Definition settled (req : request) (r : response) (w : World) : World :=
  match req with
  | PostGenerate _ => handleAnalysisSubmit_settled r w
  | GetStatus timer job => poll_settled timer job r w
  | GetPreview _ => loadJobResults_settled r w
  | PostCancel _ => handleCancelJob_settled r w
  | PostExport inst _ format _ => downloadMap_settled format inst r w
  end.

(** One turn of the event loop.  A click reaches its handler only when
    the control is rendered and enabled; frames and errors are delivered
    on open sockets only, and a failed connection is closed by the browser
    once [onerror] has run; a cleared timer does not fire. *)
Definition step (w : World) (e : event) : World :=
  match e with
  | ClickGenerate =>
      if isRunning (jobStatus w) then w else handleAnalysisSubmit w
  | ClickCancel =>
      if isRunning (jobStatus w) then handleCancelJob w else w
  | ClickTryAgain =>
      if is_str (status (jobStatus w)) "failed"
      then set_jobStatus (fun _ => idle_job) w else w
  | ClickDownload format resolution =>
      match results w with
      | Some res =>
          if isExporting w then w else downloadMap res format resolution w
      | None => w
      end
  | WsMessage k payload =>
      match sockets w !! k with
      | Some s =>
          if ws_open s then
            match onmessage (ws_job s) payload w with
            | Returns w' => w'
            | Throws e => report_uncaught e w
            end
          else w
      | None => w
      end
  | WsError k =>
      match sockets w !! k with
      | Some s =>
          if ws_open s then
            set_sockets (alter (fun s => mkSocket (ws_job s) false) k)
              (onerror (ws_job s) w)
          else w
      | None => w
      end
  | TimerTick t =>
      match timers w !! t with
      | Some tm => if t_active tm then poll_tick t (t_job tm) w else w
      | None => w
      end
  | Settle i r =>
      match inflight w !! i with
      | Some req => settled req r (set_inflight (delete i) w)
      | None => w
      end
  end.

Definition run (w : World) (evs : list event) : World := foldl step w evs.

(** Does delivering [e] in [w] make the client process a completion: a
    job_completed frame on an open socket, or a status response that says
    completed? *)
Definition completes (w : World) (e : event) : bool :=
  match e with
  | WsMessage k payload =>
      match sockets w !! k with
      | Some s =>
          ws_open s &&
          match JSON_parse payload with
          | Some (DecObj data) =>
              is_str (prop data "type") "job_completed"
          | _ => false
          end
      | None => false
      end
  | Settle i (Resolved st) =>
      match inflight w !! i with
      | Some (GetStatus _ _) => is_str (prop st "status") "completed"
      | _ => false
      end
  | _ => false
  end.

(** Number of completions processed along a run. *)
Fixpoint completions (w : World) (evs : list event) : nat :=
  match evs with
  | [] => 0
  | e :: evs' => (if completes w e then 1 else 0) + completions (step w e) evs'
  end.

(** ** Vocabulary of the properties *)

(** The date range of a request is longer than 366 days. *)
Definition range_over (p : AnalysisParams) : Prop :=
  startDate p ≠ "" ∧ endDate p ≠ "" ∧
  ∃ s e, Date_parse (startDate p) = Some s ∧ Date_parse (endDate p) = Some e ∧
         (366 * day_ms < e - s)%Z.

(** The end date of a request is not after its start date. *)
Definition end_not_after_start (p : AnalysisParams) : Prop :=
  startDate p ≠ "" ∧ endDate p ≠ "" ∧
  ∃ s e, Date_parse (startDate p) = Some s ∧ Date_parse (endDate p) = Some e ∧
         (e <= s)%Z.

(** A request fails local validation. *)
Definition fails_validation (p : AnalysisParams) : Prop :=
  regionName p = "" ∨ startDate p = "" ∨ endDate p = "" ∨
  end_not_after_start p ∨ range_over p ∨ geometry p = None.

(** The job state an outcome leaves, if the handler returned. *)
Definition job_after (o : outcome) : option JobStatus :=
  match o with
  | Returns w => Some (jobStatus w)
  | Throws _ => None
  end.

End Component.

(** ** The rest of the component: map editing and the progress panel *)

Definition set_analysisParams (f : AnalysisParams → AnalysisParams) (w : World)
  : World :=
  mkWorld (f (analysisParams w)) (jobStatus w) (results w) (errors w)
    (isExporting w) (wsRef w) (sockets w) (timers w) (inflight w) (sent w)
    (console w) (downloads w) (alerts w) (uncaught w) (viewer w).

(** [handleGeometryChange]: called by [MapSelector] with the drawn or
    edited geometry, and with [null] when the drawing is deleted.  The
    function is created anew by each render and tests the [errors] of
    that render, [captured]; the two state updates are functional and act
    on the current state.  Which render's function is called is the
    caller's affair: a caller that keeps the callbacks it was given first
    calls the one that captured the empty errors of the first render.  It
    is a function on worlds like the other handlers, but no event of
    [step]: along a run the form stays as it was entered. *)
Definition handleGeometryChange (captured : object) (g : option object)
    (w : World) : World :=
  let w' := set_analysisParams (fun prev =>
    mkParams (regionName prev) (startDate prev) (endDate prev)
             (analysisType prev) g) w in
  if truthy (prop captured "geometry")
  then set_errors (<["geometry" := VUndefined]> (errors w)) w'
  else w'.

(** [{error && <div className="error-text">...}] in [MapSelector], whose
    [error] prop is [errors.geometry]. *)
Definition geometry_error_shown (w : World) : bool :=
  truthy (prop (errors w) "geometry").

(** ToNumber on the strings and on the objects of the host: [None] is
    NaN. *)
Class Coercion : Type := {
  Number_of_string : string → option Q;
  Number_of_object : option Q
}.

Section Panel.

Context {coerce : Coercion}.

(** ToNumber *)
Definition ToNumber (v : value) : option Q :=
  match v with
  | VUndefined => None
  | VNull => Some (inject_Z 0)
  | VBool b => Some (inject_Z (if b then 1 else 0))
  | VNum n => Some (inject_Z n)
  | VStr s => Number_of_string s
  | VObj => Number_of_object
  end.

(** [v < n] and [v > n] for a number literal [n]; false on NaN. *)
Definition js_lt (v : value) (n : Z) : bool :=
  match ToNumber v with
  | Some q => negb (Qle_bool (inject_Z n) q)
  | None => false
  end.

Definition js_gt (v : value) (n : Z) : bool :=
  match ToNumber v with
  | Some q => negb (Qle_bool q (inject_Z n))
  | None => false
  end.

(** [getProgressColor] of [JobProgressPanel] *)
Definition getProgressColor (j : JobStatus) : string :=
  if is_str (status j) "failed" then "#ef4444"
  else if js_lt (progress j) 30 then "#f59e0b"
  else if js_lt (progress j) 70 then "#3b82f6"
  else "#10b981".

(** [status.progress > threshold ? 'completed' : 'pending'] *)
Definition stage_class (j : JobStatus) (threshold : Z) : string :=
  if js_gt (progress j) threshold then "completed" else "pending".

(** The classes of the five stages of the panel, in display order. *)
Definition progress_stages (j : JobStatus) : list string :=
  stage_class j <$> [10; 30; 50; 70; 90]%Z.

End Panel.

(** ** More observations *)

Definition is_generate (r : request) : bool :=
  match r with PostGenerate _ => true | _ => false end.

(** The request is an export issued by the instance [v] of
    ResultsViewer. *)
Definition is_export_of (v : nat) (r : request) : bool :=
  match r with PostExport inst _ _ _ => Nat.eqb inst v | _ => false end.

(** Export requests of the instance [v] issued and not yet settled. *)
Definition exports_of (v : nat) (w : World) : nat :=
  length (List.filter (is_export_of v) (inflight w)).

(** Every outstanding export was issued by the mounted instance or by an
    earlier one. *)
Definition exports_known (w : World) : Prop :=
  Forall (fun r => match r with
                   | PostExport inst _ _ _ => (inst ≤ viewer w)%nat
                   | _ => True
                   end) (inflight w).

(** The mounted instance of ResultsViewer knows its exports: an
    unmounted viewer has no flag, every outstanding export is of the
    mounted instance or of an earlier one, and the mounted instance has
    one outstanding exactly while its flag is set. *)
Definition exports_tracked (w : World) : Prop :=
  exports_known w ∧
  (results w = None → isExporting w = false) ∧
  exports_of (viewer w) w = (if isExporting w then 1 else 0).

Definition is_cancel (r : request) : bool :=
  match r with PostCancel _ => true | _ => false end.

(** Cancel requests issued so far. *)
Definition cancel_requests (w : World) : nat :=
  length (List.filter is_cancel (sent w)).

(** Generate requests issued and not yet settled. *)
Definition outstanding_generates (w : World) : nat :=
  length (List.filter is_generate (inflight w)).

(** No white space character starts anywhere in the string. *)
Fixpoint no_space (s : string) : bool :=
  match s with
  | EmptyString => true
  | String c s' =>
      match ws_prefix s with
      | None => no_space s'
      | Some _ => false
      end
  end.

(** Every byte of the string is an ASCII character that is no white
    space. *)
Fixpoint plain_ascii (s : string) : bool :=
  match s with
  | EmptyString => true
  | String c s' => (byte c <? 128)%N && negb (Ascii.is_space c) && plain_ascii s'
  end.

(** A socket after [close()], a timer after [clearInterval]. *)
Definition closed (s : Socket) : Socket := mkSocket (ws_job s) false.

Definition cleared (t : Timer) : Timer := mkTimer (t_job t) false.

(** No preview has been stored and none is on its way. *)
Definition no_preview (w : World) : Prop :=
  results w = None ∧ Forall (fun r => is_preview r = false) (inflight w).

(** [wsRef.current] is the socket constructed last, if any was. *)
Definition wsRef_is_newest (w : World) : Prop :=
  match wsRef w with
  | None => sockets w = []
  | Some k => S k = length (sockets w)
  end.

(** ** A concrete host, for running the component on examples *)

Module Sample.

Definition digit (c : ascii) : option Z :=
  let n := Z.of_nat (nat_of_ascii c) in
  if (48 <=? n)%Z && (n <=? 57)%Z then Some (n - 48)%Z else None.

(** Days from 1970-01-01 to the given day of the proleptic Gregorian
    calendar. *)
Definition days_from_civil (y m d : Z) : Z :=
  let y := if (m <=? 2)%Z then (y - 1)%Z else y in
  let era := (y / 400)%Z in
  let yoe := (y - era * 400)%Z in
  let mp := if (2 <? m)%Z then (m - 3)%Z else (m + 9)%Z in
  let doy := ((153 * mp + 2) / 5 + d - 1)%Z in
  let doe := (yoe * 365 + yoe / 4 - yoe / 100 + doy)%Z in
  (era * 146097 + doe - 719468)%Z.

Definition is_leap (y : Z) : bool :=
  ((y mod 4 =? 0) && negb (y mod 100 =? 0) || (y mod 400 =? 0))%Z.

Definition days_in_month (y m : Z) : Z :=
  if (m =? 2)%Z then (if is_leap y then 28 + 1 else 28)%Z
  else if ((m =? 4) || (m =? 6) || (m =? 9) || (m =? 11))%Z then 30%Z
  else 31%Z.

(** [new Date(s)] on the values a date input produces: YYYY-MM-DD is
    midnight UTC of that day; anything else is taken as an Invalid Date. *)
Definition iso_date (s : string) : option Z :=
  match s with
  | String y1 (String y2 (String y3 (String y4 (String "-"
      (String m1 (String m2 (String "-"
        (String d1 (String d2 EmptyString))))))))) =>
      a ← digit y1; b ← digit y2; c ← digit y3; e ← digit y4;
      f ← digit m1; g ← digit m2; h ← digit d1; i ← digit d2;
      let y := (a * 1000 + b * 100 + c * 10 + e)%Z in
      let m := (f * 10 + g)%Z in
      let d := (h * 10 + i)%Z in
      if ((1 <=? m) && (m <=? 12) && (1 <=? d) && (d <=? days_in_month y m))%Z
      then Some (days_from_civil y m d * day_ms)%Z
      else None
  | _ => None
  end.

(** [parseInt] on a decimal numeral. *)
Fixpoint decimal_go (acc : Z) (s : string) : Z :=
  match s with
  | EmptyString => acc
  | String c s' =>
      match digit c with
      | Some d => decimal_go (acc * 10 + d)%Z s'
      | None => acc
      end
  end.

Definition decimal (s : string) : Z := decimal_go 0 s.

(** The double quote character, and a quoted JSON string. *)
Definition dq : string := String (ascii_of_nat 34) EmptyString.

Definition quoted (s : string) : string := dq +:+ s +:+ dq.

(** A few frames as the server writes them. *)
Definition frame_progress45 : string :=
  "{" +:+ quoted "type" +:+ ":" +:+ quoted "progress_update" +:+ ","
      +:+ quoted "progress" +:+ ":45,"
      +:+ quoted "message" +:+ ":" +:+ quoted "Loading satellite data" +:+ "}".

Definition frame_completed : string :=
  "{" +:+ quoted "type" +:+ ":" +:+ quoted "job_completed" +:+ "}".

Definition frame_failed : string :=
  "{" +:+ quoted "type" +:+ ":" +:+ quoted "job_failed" +:+ ","
      +:+ quoted "message" +:+ ":" +:+ quoted "GEE quota exceeded" +:+ "}".

Definition frame_failed_bare : string :=
  "{" +:+ quoted "type" +:+ ":" +:+ quoted "job_failed" +:+ "}".

(** A frame cut off in transit. *)
Definition frame_truncated : string := "{" +:+ quoted "type" +:+ ":".

(** [JSON.parse] on the frames above and on [null]; it throws on the
    truncated frame, and, in this sample, on every other text. *)
Definition parse_frame (s : string) : option decoded :=
  if String.eqb s frame_progress45 then
    Some (DecObj {[ "type" := VStr "progress_update"; "progress" := VNum 45;
                    "message" := VStr "Loading satellite data" ]})
  else if String.eqb s frame_completed then
    Some (DecObj {[ "type" := VStr "job_completed" ]})
  else if String.eqb s frame_failed then
    Some (DecObj {[ "type" := VStr "job_failed";
                    "message" := VStr "GEE quota exceeded" ]})
  else if String.eqb s frame_failed_bare then
    Some (DecObj {[ "type" := VStr "job_failed" ]})
  else if String.eqb s "null" then Some DecNull
  else None.

Definition host : Host :=
  {| Date_parse := iso_date; JSON_parse := parse_frame; parseInt := decimal |}.

#[local] Existing Instance host.

(** The request of the end-to-end scenario. *)
Definition zimbabwe : AnalysisParams :=
  mkParams "Zimbabwe" "2025-11-01" "2025-12-15" "anomaly" (Some ∅).

(** Response bodies. *)
Definition job_created (id : string) : response :=
  Resolved {[ "job_id" := VStr id ]}.

Definition status_body (st : string) (pr : Z) (msg : string) : response :=
  Resolved {[ "status" := VStr st; "progress" := VNum pr; "message" := VStr msg ]}.

Definition preview_body : object :=
  {[ "image_data" := VStr "iVBORw0KGgo="; "statistics" := VObj ]}.

(** The component after the server accepted the request as job-1: the
    job is pending and socket 0 is open for it. *)
Definition submitted : World :=
  run (initial_world zimbabwe) [ClickGenerate; Settle 0 (job_created "job-1")].

(** The push channel has reported job-1 completed. *)
Definition completed : World := run submitted [WsMessage 0 frame_completed].

(** The preview of job-1 has been stored. *)
Definition previewed : World := run completed [Settle 0 (Resolved preview_body)].

(** The push channel failed and polling took over, as timer 0. *)
Definition polling : World := run submitted [WsError 0].

(** A second request was submitted after job-1 completed, and accepted
    as job-2. *)
Definition resubmitted : World :=
  run completed [ClickGenerate; Settle 1 (job_created "job-2")].

(** A request whose range is longer than 366 days. *)
Definition two_years : AnalysisParams :=
  mkParams "Zimbabwe" "2023-11-01" "2025-12-15" "anomaly" (Some ∅).

End Sample.

(** ** More examples: a second host, a coercion, further requests *)

Module Scenes.

#[local] Existing Instance Sample.host.

(** Two more frames: a later progress report, and a progress report that
    carries no progress. *)
Definition frame_progress80 : string :=
  "{" +:+ Sample.quoted "type" +:+ ":" +:+ Sample.quoted "progress_update" +:+ ","
      +:+ Sample.quoted "progress" +:+ ":80,"
      +:+ Sample.quoted "message" +:+ ":" +:+ Sample.quoted "Rendering map" +:+ "}".

Definition frame_progress_bare : string :=
  "{" +:+ Sample.quoted "type" +:+ ":" +:+ Sample.quoted "progress_update" +:+ ","
      +:+ Sample.quoted "message" +:+ ":" +:+ Sample.quoted "Working" +:+ "}".

(** [JSON.parse] on these two frames and on the frames of [Sample]. *)
Definition parse_frame (s : string) : option decoded :=
  if String.eqb s frame_progress80 then
    Some (DecObj {[ "type" := VStr "progress_update"; "progress" := VNum 80;
                    "message" := VStr "Rendering map" ]})
  else if String.eqb s frame_progress_bare then
    Some (DecObj {[ "type" := VStr "progress_update"; "message" := VStr "Working" ]})
  else Sample.parse_frame s.

Definition host : Host :=
  {| Date_parse := Sample.iso_date; JSON_parse := parse_frame;
     parseInt := Sample.decimal |}.

(** ToNumber on a string of decimal digits (the empty string is 0) and
    NaN on every other string and on objects. *)
Fixpoint all_digits (s : string) : bool :=
  match s with
  | EmptyString => true
  | String c s' =>
      match Sample.digit c with
      | Some _ => all_digits s'
      | None => false
      end
  end.

Definition coercion : Coercion :=
  {| Number_of_string := fun s =>
       if all_digits s then Some (inject_Z (Sample.decimal s)) else None;
     Number_of_object := None |}.

(** Requests: a start date that is no date, dates in the wrong order, a
    region name with runs of white space. *)
Definition bad_date : AnalysisParams :=
  mkParams "Zimbabwe" "tomorrow" "2025-12-15" "anomaly" (Some ∅).

Definition reversed : AnalysisParams :=
  mkParams "Zimbabwe" "2025-12-15" "2025-11-01" "anomaly" (Some ∅).

Definition spaced : AnalysisParams :=
  mkParams "Mashonaland   Central" "2025-11-01" "2025-12-15" "anomaly" (Some ∅).

(** U+00A0, the no-break space, in UTF-8. *)
Definition nbsp : string := String (ascii_of_nat 194) (String (ascii_of_nat 160) "").

(** Requests: a region name made of a no-break space and a space, a
    region name with a no-break space inside, and no drawn area. *)
Definition blank_region : AnalysisParams :=
  mkParams (nbsp +:+ " ") "2025-11-01" "2025-12-15" "anomaly" (Some ∅).

Definition north_west : AnalysisParams :=
  mkParams ("North" +:+ nbsp +:+ " West") "2025-11-01" "2025-12-15" "anomaly" (Some ∅).

Definition no_area : AnalysisParams :=
  mkParams "Zimbabwe" "2025-11-01" "2025-12-15" "anomaly" None.

(** A preview body that names its job, and the component once it is
    stored. *)
Definition preview_of_job1 : object :=
  {[ "job_id" := VStr "job-1"; "image_data" := VStr "iVBORw0KGgo=" ]}.

Definition exportable : World :=
  run Sample.completed [Settle 0 (Resolved preview_of_job1)].

(** The form without a drawn area was submitted: the geometry error is
    displayed. *)
Definition area_missing : World := run (initial_world no_area) [ClickGenerate].

End Scenes.

(** * Properties *)

Section Properties.

Context {browser : Host}.

(** ** Form validation and submission *)

(** The rational test on the day count is a comparison of milliseconds. *)
Lemma range_exceeds_spec (s e : Z) :
  range_exceeds (Some s) (Some e) = true ↔ (366 * day_ms < e - s)%Z.
Proof.
  unfold range_exceeds. rewrite negb_true_iff, <- not_true_iff_false, Qle_bool_iff.
  unfold Qle, Qdiv, Qmult, Qinv, inject_Z, day_ms. simpl. lia.
Qed.

Lemma eqb_empty_false (s : string) : s ≠ "" → String.eqb s "" = false.
Proof. intros H. by apply String.eqb_neq. Qed.

Lemma validateForm_regionName (p : AnalysisParams) :
  regionName p = "" →
  validateForm p !! "regionName" = Some (VStr "Region name is required").
Proof.
  intros H. unfold validateForm. rewrite H. simpl.
  repeat case_match; by simplify_map_eq.
Qed.

Lemma validateForm_startDate (p : AnalysisParams) :
  startDate p = "" →
  validateForm p !! "startDate" = Some (VStr "Start date is required").
Proof.
  intros H. unfold validateForm. rewrite H. simpl.
  repeat case_match; by simplify_map_eq.
Qed.

Lemma validateForm_endDate (p : AnalysisParams) :
  endDate p = "" →
  validateForm p !! "endDate" = Some (VStr "End date is required").
Proof.
  intros H. unfold validateForm. rewrite H. simpl.
  rewrite andb_false_r.
  repeat case_match; by simplify_map_eq.
Qed.

Lemma validateForm_not_after (p : AnalysisParams) :
  end_not_after_start p → is_Some (validateForm p !! "endDate").
Proof.
  intros (Hs & He & s & e & Ps & Pe & Hle). unfold validateForm.
  rewrite (eqb_empty_false _ Hs), (eqb_empty_false _ He), Ps, Pe. simpl.
  assert ((e <=? s)%Z = true) as -> by lia.
  repeat case_match; simplify_map_eq; eauto.
Qed.

Lemma validateForm_range (p : AnalysisParams) :
  range_over p →
  validateForm p !! "endDate" = Some (VStr "Date range cannot exceed 366 days").
Proof.
  intros (Hs & He & s & e & Ps & Pe & Hlt). unfold validateForm.
  rewrite (eqb_empty_false _ Hs), (eqb_empty_false _ He), Ps, Pe.
  rewrite (proj2 (range_exceeds_spec s e) Hlt). cbn [negb andb].
  repeat case_match; by simplify_map_eq.
Qed.

Lemma validateForm_geometry (p : AnalysisParams) :
  geometry p = None →
  validateForm p !! "geometry" =
    Some (VStr "Please define an analysis area on the map").
Proof.
  intros H. unfold validateForm. rewrite H. by simplify_map_eq.
Qed.

Lemma validateForm_fails (p : AnalysisParams) :
  fails_validation p → (0 <? size (validateForm p))%nat = true.
Proof.
  intros H.
  assert (∃ k, is_Some (validateForm p !! k)) as (k & v & Hk).
  { destruct H as [H|[H|[H|[H|[H|H]]]]].
    - exists "regionName". rewrite validateForm_regionName; eauto.
    - exists "startDate". rewrite validateForm_startDate; eauto.
    - exists "endDate". rewrite validateForm_endDate; eauto.
    - exists "endDate". by apply validateForm_not_after.
    - exists "endDate". rewrite validateForm_range; eauto.
    - exists "geometry". rewrite validateForm_geometry; eauto. }
  apply Nat.ltb_lt.
  destruct (decide (size (validateForm p) = 0)) as [Hz|Hz]; [|lia].
  apply map_size_empty_iff in Hz. rewrite Hz in Hk. by rewrite lookup_empty in Hk.
Qed.

(** C4. A request that fails local validation (empty region name, missing
    start or end date, end date not after the start date, a range of more
    than 366 days, or no geometry) makes [handleAnalysisSubmit] store the
    non-empty, field-keyed error mapping of [validateForm] and do nothing
    else: no request is issued.  Each violated condition has its field in
    the mapping, and a range of more than 366 days is reported on endDate
    with the range message. *)
Theorem submit_rejects_invalid_request (w : World) :
  fails_validation (analysisParams w) →
  let p := analysisParams w in
  let w' := handleAnalysisSubmit w in
  w' = set_errors (validateForm p) w ∧
  errors w' = validateForm p ∧ errors w' ≠ ∅ ∧
  sent w' = sent w ∧ inflight w' = inflight w ∧
  (regionName p = "" → is_Some (errors w' !! "regionName")) ∧
  (startDate p = "" → is_Some (errors w' !! "startDate")) ∧
  (endDate p = "" → is_Some (errors w' !! "endDate")) ∧
  (end_not_after_start p → is_Some (errors w' !! "endDate")) ∧
  (range_over p →
     errors w' !! "endDate" = Some (VStr "Date range cannot exceed 366 days")) ∧
  (geometry p = None → is_Some (errors w' !! "geometry")).
Proof.
  intros Hf p w'.
  assert (w' = set_errors (validateForm p) w) as Hw.
  { unfold w', p, handleAnalysisSubmit. by rewrite (validateForm_fails _ Hf). }
  rewrite Hw. simpl. split_and!; try done.
  - intros He. pose proof (validateForm_fails _ Hf) as Hs.
    unfold p in He. rewrite He, map_size_empty in Hs. done.
  - intros H. rewrite validateForm_regionName; eauto.
  - intros H. rewrite validateForm_startDate; eauto.
  - intros H. rewrite validateForm_endDate; eauto.
  - apply validateForm_not_after.
  - apply validateForm_range.
  - intros H. rewrite validateForm_geometry; eauto.
Qed.

(** ** The push channel handler *)

(** C5. With the job pending or running, handling a job_completed frame
    returns normally, moves the job to completed with progress 100, keeps
    the job id, and issues the preview request for the job the socket was
    opened for. *)
Theorem job_completed_frame_completes
    (job : value) (payload : string) (data : object) (w : World) :
  JSON_parse payload = Some (DecObj data) →
  prop data "type" = VStr "job_completed" →
  status (jobStatus w) = VStr "pending" ∨ status (jobStatus w) = VStr "running" →
  ∃ w', onmessage job payload w = Returns w' ∧
        status (jobStatus w') = VStr "completed" ∧
        progress (jobStatus w') = VNum 100 ∧
        jobId (jobStatus w') = jobId (jobStatus w) ∧
        sent w' = sent w ++ [GetPreview job] ∧
        inflight w' = inflight w ++ [GetPreview job].
Proof.
  intros Hp Ht _. unfold onmessage. rewrite Hp, Ht. simpl.
  eexists. split; [reflexivity|]. by simpl.
Qed.

(** C10. Handling a job_failed frame returns normally and rewrites the
    status and the message of the job only: the job id and the progress
    keep their values, and nothing else in the component changes. *)
Theorem job_failed_frame_keeps_id_and_progress
    (job : value) (payload : string) (data : object) (w : World) :
  JSON_parse payload = Some (DecObj data) →
  prop data "type" = VStr "job_failed" →
  ∃ w', onmessage job payload w = Returns w' ∧
        jobId (jobStatus w') = jobId (jobStatus w) ∧
        progress (jobStatus w') = progress (jobStatus w) ∧
        status (jobStatus w') = VStr "failed" ∧
        message (jobStatus w') =
          or_else (prop data "message") (VStr "Analysis failed") ∧
        w' = set_jobStatus (fun _ => jobStatus w') w.
Proof.
  intros Hp Ht. unfold onmessage. rewrite Hp, Ht. simpl.
  eexists. split; [reflexivity|]. by simpl.
Qed.

(** A frame that does not decode makes the handler throw, before any
    update; delivered on an open socket it leaves the component as it was
    but for the exception the browser reports. *)
Lemma undecodable_frame_throws
    (k : nat) (s : Socket) (payload : string) (w : World) :
  JSON_parse payload = None →
  sockets w !! k = Some s → ws_open s = true →
  onmessage (ws_job s) payload w = Throws SyntaxError ∧
  step w (WsMessage k payload) = report_uncaught SyntaxError w.
Proof.
  intros Hp Hk Ho. unfold step, onmessage. by rewrite Hk, Ho, Hp.
Qed.

(** A socket that saw the job complete stays open, and a progress frame
    that arrives on it afterwards puts the job back to running. *)
Lemma frame_after_completion_is_applied
    (k : nat) (s : Socket) (done_ late : string) (d1 d2 : object) (w : World) :
  sockets w !! k = Some s → ws_open s = true →
  JSON_parse done_ = Some (DecObj d1) → prop d1 "type" = VStr "job_completed" →
  JSON_parse late = Some (DecObj d2) → prop d2 "type" = VStr "progress_update" →
  let w1 := step w (WsMessage k done_) in
  let w2 := step w1 (WsMessage k late) in
  status (jobStatus w1) = VStr "completed" ∧
  sockets w1 = sockets w ∧
  jobStatus w2 = mkJob (VStr "running") (prop d2 "progress") (prop d2 "message")
                       (jobId (jobStatus w)).
Proof.
  intros Hk Ho P1 T1 P2 T2. unfold step, onmessage.
  rewrite Hk, Ho, P1, T1. simpl. rewrite Hk, Ho, P2, T2. by simpl.
Qed.

(** No frame ever closes a socket or clears a timer: whatever arrives,
    the subscriptions are after the frame what they were before it. *)
Lemma frames_leave_subscriptions (k : nat) (payload : string) (w : World) :
  sockets (step w (WsMessage k payload)) = sockets w ∧
  timers (step w (WsMessage k payload)) = timers w.
Proof.
  unfold step. destruct (sockets w !! k) as [s|]; [|done].
  destruct (ws_open s); [|done]. unfold onmessage.
  destruct (JSON_parse payload) as [[|data]|]; try done.
  destruct (is_str (prop data "type") "progress_update"); [done|].
  destruct (is_str (prop data "type") "job_completed"); [done|].
  by destruct (is_str (prop data "type") "job_failed").
Qed.

(** The polling callback does end its subscription on a terminal
    status: the timer it runs on is cleared. *)
Lemma poll_terminal_clears_timer
    (t : nat) (tm : Timer) (job : value) (st : object) (w : World) :
  timers w !! t = Some tm →
  is_str (prop st "status") "completed" = true ∨
  is_str (prop st "status") "failed" = true →
  timers (poll_settled t job (Resolved st) w) !! t = Some (mkTimer (t_job tm) false).
Proof.
  intros Ht Hs. unfold poll_settled. cbn [props].
  destruct (is_str (prop st "status") "completed").
  - simpl. by rewrite list_lookup_alter_eq, Ht.
  - destruct Hs as [Hs|Hs]; [done|]. rewrite Hs. simpl.
    by rewrite list_lookup_alter_eq, Ht.
Qed.

(** The polling callback catches a failed status request and logs it. *)
Lemma poll_failure_is_logged (t : nat) (job detail : value) (w : World) :
  poll_settled t job (Rejected detail) w =
    console_error "Failed to poll job status:" w.
Proof. done. Qed.

(** C2, as the code has it. [startWebSocketConnection] tears nothing
    down: it opens one more socket and points [wsRef] to it, every socket
    and timer that existed stays as it was, so one more subscription is
    active after the call than before; and whichever socket a frame
    arrives on, its handler updates the job state in the same way. *)
Theorem subscribe_keeps_earlier_subscriptions (job : value) (w : World) :
  let w' := startWebSocketConnection job w in
  sockets w' = sockets w ++ [mkSocket job true] ∧
  wsRef w' = Some (length (sockets w)) ∧
  timers w' = timers w ∧
  subscriptions w' = S (subscriptions w) ∧
  ∀ (stale : value) (payload : string),
    job_after (onmessage stale payload w') = job_after (onmessage job payload w').
Proof.
  intros w'. split_and!; try done.
  - unfold subscriptions, open_sockets, active_timers, w'. simpl.
    rewrite List.filter_app, length_app. simpl. lia.
  - intros stale payload. unfold onmessage.
    destruct (JSON_parse payload) as [[|data]|]; try done.
    repeat case_match; done.
Qed.

(** ** Cancellation *)

Lemma cancel_requests_issue (r : request) (w : World) :
  cancel_requests (issue r w) =
    cancel_requests w + (if is_cancel r then 1 else 0).
Proof.
  unfold cancel_requests. simpl. rewrite List.filter_app, length_app.
  simpl. by destruct (is_cancel r).
Qed.

(** Closes a goal on [cancel_requests] once the handler is unfolded. *)
Local Ltac count_cancels :=
  rewrite ?cancel_requests_issue; unfold cancel_requests; simpl; lia.

(** C3. While the job is neither pending nor running (idle, completed,
    failed, or any other status) invoking cancel is a no-op: the click
    leaves the component exactly as it was, so no cancel request is issued
    and the job state is unchanged.  Cancellation is accepted from pending
    and running only: in any other state no event at all issues a cancel
    request. *)
Theorem cancel_is_a_noop_outside_pending_and_running (w : World) :
  isRunning (jobStatus w) = false →
  step w ClickCancel = w ∧
  ∀ e, cancel_requests (step w e) = cancel_requests w.
Proof.
  intros Hr. split; [unfold step; by rewrite Hr|].
  intros e. destruct e as [| | |f r|k payload|k|t|i r]; unfold step.
  - rewrite Hr. unfold handleAnalysisSubmit. repeat case_match; count_cancels.
  - by rewrite Hr.
  - repeat case_match; count_cancels.
  - unfold downloadMap. repeat case_match; count_cancels.
  - destruct (sockets w !! k) as [s|]; [|done].
    destruct (ws_open s); [|done]. unfold onmessage, loadJobResults.
    destruct (JSON_parse payload) as [[|data]|]; try count_cancels.
    destruct (is_str (prop data "type") "progress_update"); [count_cancels|].
    destruct (is_str (prop data "type") "job_completed"); [count_cancels|].
    destruct (is_str (prop data "type") "job_failed"); count_cancels.
  - unfold onerror, pollJobStatus. repeat case_match; count_cancels.
  - unfold poll_tick. repeat case_match; count_cancels.
  - destruct (inflight w !! i) as [req|] eqn:Hi; [|done].
    destruct req, r; unfold settled;
      unfold handleAnalysisSubmit_settled, poll_settled, loadJobResults_settled,
        handleCancelJob_settled, downloadMap_settled, close_current,
        startWebSocketConnection, clearInterval, loadJobResults,
        store_results, unmount_viewer, props;
      repeat case_match; count_cancels.
Qed.

(** ** Export *)

(** C9. When the stored result has no job_id property, [downloadMap]
    returns at once: the component is left exactly as it was, so no export
    request is issued and no file is saved, whether the handler is called
    directly or reached through the download button. *)
Theorem export_without_job_id_is_noop
    (res : object) (format resolution : string) (w : World) :
  results w = Some res → res !! "job_id" = None →
  downloadMap res format resolution w = w ∧
  step w (ClickDownload format resolution) = w.
Proof.
  intros Hr Hj.
  assert (downloadMap res format resolution w = w) as Hd.
  { unfold downloadMap, prop. by rewrite Hj. }
  split; [done|]. unfold step. rewrite Hr, Hd. by destruct (isExporting w).
Qed.

(** The preview body is stored as it came. *)
Lemma preview_stored_verbatim (data : object) (w : World) :
  results (loadJobResults_settled (Resolved data) w) = Some data.
Proof. unfold loadJobResults_settled, store_results. by destruct (results w). Qed.

(** ** Preview requests along a run *)

Lemma preview_fetches_issue (r : request) (w : World) :
  preview_fetches (issue r w) =
    preview_fetches w + (if is_preview r then 1 else 0).
Proof.
  unfold preview_fetches. simpl. rewrite List.filter_app, length_app.
  simpl. by destruct (is_preview r).
Qed.

(** Closes a goal on [preview_fetches] once the handler is unfolded: the
    history only ever grows by [issue]. *)
Local Ltac count_fetches :=
  rewrite ?preview_fetches_issue; unfold preview_fetches; simpl; lia.

Lemma preview_fetches_step (w : World) (e : event) :
  preview_fetches (step w e) =
    preview_fetches w + (if completes w e then 1 else 0).
Proof.
  destruct e as [| | |f r|k payload|k|t|i r]; unfold step, completes.
  - unfold handleAnalysisSubmit. repeat case_match; count_fetches.
  - unfold handleCancelJob. repeat case_match; count_fetches.
  - repeat case_match; count_fetches.
  - unfold downloadMap. repeat case_match; count_fetches.
  - destruct (sockets w !! k) as [s|]; [|count_fetches].
    destruct (ws_open s); [|count_fetches].
    unfold onmessage. rewrite andb_true_l.
    destruct (JSON_parse payload) as [[|data]|]; try count_fetches.
    destruct (is_str (prop data "type") "progress_update") eqn:E1.
    + assert (is_str (prop data "type") "job_completed" = false) as ->.
      { destruct (prop data "type") as [| | | |ty|]; try done. simpl in *.
        apply String.eqb_eq in E1 as ->. done. }
      count_fetches.
    + unfold loadJobResults.
      destruct (is_str (prop data "type") "job_completed");
        [|destruct (is_str (prop data "type") "job_failed")]; count_fetches.
  - unfold onerror, pollJobStatus. repeat case_match; count_fetches.
  - unfold poll_tick. repeat case_match; count_fetches.
  - destruct (inflight w !! i) as [req|] eqn:Hi.
    + destruct req, r; unfold settled;
        unfold handleAnalysisSubmit_settled, poll_settled, loadJobResults_settled,
          handleCancelJob_settled, downloadMap_settled, close_current,
          startWebSocketConnection, clearInterval, loadJobResults,
          store_results, unmount_viewer, props, prop;
        rewrite ?lookup_empty; cbn [default is_str];
        repeat case_match; count_fetches.
    + destruct r; count_fetches.
Qed.

(** C6, as the code has it. Along every run the number of preview
    requests issued equals the number of completions the client processed
    (job_completed frames handled on an open socket, status responses that
    say completed): each of them issues exactly one, and no other event,
    progress or failure, issues any. *)
Theorem preview_fetched_once_per_completion (evs : list event) (w : World) :
  preview_fetches (run w evs) = preview_fetches w + completions w evs.
Proof.
  unfold run. revert w.
  induction evs as [|e evs IH]; intros w; cbn [foldl completions].
  - lia.
  - rewrite IH, preview_fetches_step. lia.
Qed.

(** ** Polling *)

Lemma outstanding_polls_tick (t : nat) (tm : Timer) (w : World) :
  timers w !! t = Some tm → t_active tm = true →
  outstanding_polls (step w (TimerTick t)) = S (outstanding_polls w) ∧
  timers (step w (TimerTick t)) = timers w.
Proof.
  intros Ht Ha. unfold step. rewrite Ht, Ha.
  unfold outstanding_polls, poll_tick. simpl.
  rewrite List.filter_app, length_app. simpl. split; [lia|done].
Qed.

(** C8, as the code has it. Every tick of a polling timer that has not
    been cleared issues a status request, whether or not earlier ones have
    settled: n ticks in a row add n outstanding status requests. *)
Theorem every_tick_issues_a_status_request
    (t : nat) (tm : Timer) (n : nat) (w : World) :
  timers w !! t = Some tm → t_active tm = true →
  outstanding_polls (run w (replicate n (TimerTick t))) = n + outstanding_polls w.
Proof.
  unfold run. revert w.
  induction n as [|n IH]; intros w Ht Ha; cbn [replicate foldl]; [done|].
  destruct (outstanding_polls_tick t tm w Ht Ha) as [Ho Hs].
  rewrite IH; [rewrite Ho; lia | by rewrite Hs | done].
Qed.

End Properties.

(** * Further properties of the component *)

(** ** White space *)

(** Splits on the tests [ws_prefix] makes on the first three bytes. *)
Local Ltac split_head c1 c2 c3 :=
  try destruct (Ascii.is_space c1) eqn:?;
  try destruct (ws2 c1 c2) eqn:?;
  try destruct (ws3 c1 c2 c3) eqn:?.

(** The functions on white space, unfolded once along [ws_prefix]. *)
Lemma ltrim_eq s : ltrim s = match ws_prefix s with Some r => ltrim r | None => s end.
Proof.
  destruct s as [|c1 [|c2 [|c3 s3]]]; cbn [ltrim ws_prefix];
    split_head c1 c2 c3; reflexivity.
Qed.

Lemma all_space_eq s :
  all_space s = match s with
                | EmptyString => true
                | _ => match ws_prefix s with Some r => all_space r | None => false end
                end.
Proof.
  destruct s as [|c1 [|c2 [|c3 s3]]]; cbn [all_space ws_prefix];
    split_head c1 c2 c3; reflexivity.
Qed.

Lemma replace_ws_go_eq b s :
  replace_ws_go b s =
    match ws_prefix s with
    | Some r => emit b (replace_ws_go true r)
    | None => match s with
              | String c s' => String c (replace_ws_go false s')
              | EmptyString => EmptyString
              end
    end.
Proof.
  destruct s as [|c1 [|c2 [|c3 s3]]]; cbn [replace_ws_go ws_prefix];
    split_head c1 c2 c3; reflexivity.
Qed.

Lemma no_space_eq s :
  no_space s = match s with
               | EmptyString => true
               | String c s' => match ws_prefix s with None => no_space s' | Some _ => false end
               end.
Proof. by destruct s. Qed.

Lemma ws_prefix_shorter s r :
  ws_prefix s = Some r → (String.length r < String.length s)%nat.
Proof.
  destruct s as [|c1 [|c2 [|c3 s3]]]; cbn [ws_prefix];
    split_head c1 c2 c3; intros; simplify_eq; simpl; lia.
Qed.

Lemma string_length_ind (P : string → Prop) :
  (∀ s, (∀ r, (String.length r < String.length s)%nat → P r) → P s) → ∀ s, P s.
Proof.
  intros H s. remember (String.length s) as n eqn:Hn.
  revert s Hn. induction n as [n IH] using lt_wf_ind. intros s ->.
  apply H. intros r Hr. by apply (IH _ Hr).
Qed.

Lemma all_space_ltrim s : all_space (ltrim s) = all_space s.
Proof.
  induction s as [s IH] using string_length_ind.
  rewrite ltrim_eq, (all_space_eq s).
  destruct (ws_prefix s) as [r|] eqn:Hp.
  - rewrite IH by (by apply ws_prefix_shorter). destruct s; [done|reflexivity].
  - rewrite (all_space_eq s), Hp. reflexivity.
Qed.

Lemma ltrim_all_space s : all_space (ltrim s) = true → ltrim s = "".
Proof.
  induction s as [s IH] using string_length_ind.
  rewrite ltrim_eq. destruct (ws_prefix s) as [r|] eqn:Hp.
  - apply IH. by apply ws_prefix_shorter.
  - rewrite all_space_eq, Hp. by destruct s.
Qed.

Lemma rtrim_empty s : rtrim s = "" ↔ all_space s = true.
Proof.
  destruct s as [|c s]; [done|].
  cbn [rtrim]. destruct (all_space (String c s)); [done|]. split; done.
Qed.

Lemma trim_blank s : trim s = "" ↔ all_space s = true.
Proof. unfold trim. by rewrite rtrim_empty, all_space_ltrim. Qed.

Lemma ws2_second c1 c2 : ws2 c1 c2 = true → byte c1 = 194%N ∧ byte c2 = 160%N.
Proof. unfold ws2. intros [H1 H2]%andb_true_iff. split; by apply N.eqb_eq. Qed.

Lemma ws3_bytes c1 c2 c3 :
  ws3 c1 c2 c3 = true →
  (225 <= byte c1)%N ∧ (128 <= byte c2)%N ∧ (128 <= byte c3)%N.
Proof.
  unfold ws3. rewrite !orb_true_iff, !andb_true_iff, !orb_true_iff, !andb_true_iff,
    !N.eqb_eq, !N.leb_le. lia.
Qed.

(** A byte below 128 that is no white space starts no white space. *)
Lemma ws_prefix_ascii c t :
  (byte c < 128)%N → Ascii.is_space c = false → ws_prefix (String c t) = None.
Proof.
  intros Hb Hs. cbn [ws_prefix]. rewrite Hs.
  destruct t as [|c2 [|c3 t]]; [done| |].
  - destruct (ws2 c c2) eqn:H2; [|done]. apply ws2_second in H2. lia.
  - destruct (ws2 c c2) eqn:H2; [apply ws2_second in H2; lia|].
    destruct (ws3 c c2 c3) eqn:H3; [|done]. apply ws3_bytes in H3. lia.
Qed.

(** What [ws_prefix] being [None] says about the first bytes. *)
Lemma ws_prefix_None1 c1 s1 : ws_prefix (String c1 s1) = None → Ascii.is_space c1 = false.
Proof. cbn [ws_prefix]. by destruct (Ascii.is_space c1). Qed.

Lemma ws_prefix_None2 c1 c2 s2 :
  ws_prefix (String c1 (String c2 s2)) = None → ws2 c1 c2 = false.
Proof.
  cbn [ws_prefix]. destruct (Ascii.is_space c1); [done|]. by destruct (ws2 c1 c2).
Qed.

Lemma ws_prefix_None3 c1 c2 c3 s3 :
  ws_prefix (String c1 (String c2 (String c3 s3))) = None → ws3 c1 c2 c3 = false.
Proof.
  cbn [ws_prefix]. destruct (Ascii.is_space c1); [done|].
  destruct (ws2 c1 c2); [done|]. by destruct (ws3 c1 c2 c3).
Qed.

(** [ws_prefix] looks at three bytes at most. *)
Lemma ws_prefix_None_intro c1 s1 :
  Ascii.is_space c1 = false →
  (∀ c2 s2, s1 = String c2 s2 → ws2 c1 c2 = false) →
  (∀ c2 c3 s3, s1 = String c2 (String c3 s3) → ws3 c1 c2 c3 = false) →
  ws_prefix (String c1 s1) = None.
Proof.
  intros H1 H2 H3. cbn [ws_prefix]. rewrite H1.
  destruct s1 as [|c2 [|c3 s3]]; [done| |].
  - by rewrite (H2 c2 "").
  - by rewrite (H2 c2 (String c3 s3)), (H3 c2 c3 s3).
Qed.

Lemma byte_underscore : byte "_" = 95%N.
Proof. reflexivity. Qed.

Lemma ws_prefix_keeps_None c1 s1 :
  ws_prefix (String c1 s1) = None →
  ws_prefix (String c1 (replace_ws_go false s1)) = None.
Proof.
  intros Hn. apply ws_prefix_None_intro.
  - by apply ws_prefix_None1 in Hn.
  - intros c2 t Ht. rewrite replace_ws_go_eq in Ht.
    destruct (ws_prefix s1) as [r|] eqn:Hp; simpl in Ht.
    + simplify_eq. destruct (ws2 c1 "_") eqn:H2; [|done].
      apply ws2_second in H2. rewrite byte_underscore in H2. lia.
    + destruct s1 as [|d s']; [done|]. simplify_eq. by apply ws_prefix_None2 in Hn.
  - intros c2 c3 t Ht. rewrite replace_ws_go_eq in Ht.
    destruct (ws_prefix s1) as [r|] eqn:Hp; simpl in Ht.
    + simplify_eq. destruct (ws3 c1 "_" c3) eqn:H3; [|done].
      apply ws3_bytes in H3. rewrite byte_underscore in H3. lia.
    + destruct s1 as [|d s']; [done|]. injection Ht as -> Ht.
      rewrite replace_ws_go_eq in Ht.
      destruct (ws_prefix s') as [r|] eqn:Hp'; simpl in Ht.
      * injection Ht as <- _. destruct (ws3 c1 c2 "_") eqn:H3; [|done].
        apply ws3_bytes in H3. rewrite byte_underscore in H3. lia.
      * destruct s' as [|e s'']; [done|]. injection Ht as -> _.
        by apply ws_prefix_None3 in Hn.
Qed.

Lemma replace_ws_go_no_space b s : no_space (replace_ws_go b s) = true.
Proof.
  revert b. induction s as [s IH] using string_length_ind. intros b.
  rewrite replace_ws_go_eq. destruct (ws_prefix s) as [r|] eqn:Hp.
  - apply ws_prefix_shorter in Hp. destruct b; simpl emit; [by apply IH|].
    rewrite no_space_eq, ws_prefix_ascii; [by apply IH | by vm_compute | done].
  - destruct s as [|c s']; [done|].
    rewrite no_space_eq, (ws_prefix_keeps_None _ _ Hp). apply IH. simpl. lia.
Qed.

Lemma replace_ws_go_id b s : no_space s = true → replace_ws_go b s = s.
Proof.
  revert b. induction s as [|c s IH]; intros b; [done|].
  rewrite no_space_eq, replace_ws_go_eq.
  destruct (ws_prefix (String c s)); [done|]. intros Hs. f_equal. by apply IH.
Qed.

Lemma no_space_app_ascii a c b :
  (byte c < 128)%N → no_space a = true → no_space (String c b) = true →
  no_space (a +:+ String c b) = true.
Proof.
  intros Hc. induction a as [|c1 a IH]; [done|].
  rewrite no_space_eq. destruct (ws_prefix (String c1 a)) eqn:Hp; [done|].
  intros Ha Hb. change (String c1 a +:+ String c b) with (String c1 (a +:+ String c b)).
  rewrite no_space_eq.
  assert (ws_prefix (String c1 (a +:+ String c b)) = None) as ->; [|by apply IH].
  apply ws_prefix_None_intro.
  - by apply ws_prefix_None1 in Hp.
  - intros c2 t Ht. destruct a as [|d a'].
    + unfold String.app, String.append in Ht; fold String.append in Ht.
      simplify_eq. destruct (ws2 c1 c2) eqn:H2; [|done].
      apply ws2_second in H2. lia.
    + change (String d a' +:+ String c b) with (String d (a' +:+ String c b)) in Ht.
      simplify_eq. by apply ws_prefix_None2 in Hp.
  - intros c2 c3 t Ht. destruct a as [|d [|e a'']].
    + unfold String.app, String.append in Ht; fold String.append in Ht.
      simplify_eq. destruct (ws3 c1 c2 c3) eqn:H3; [|done].
      apply ws3_bytes in H3. lia.
    + unfold String.app, String.append in Ht; fold String.append in Ht.
      simplify_eq. destruct (ws3 c1 c2 c3) eqn:H3; [|done].
      apply ws3_bytes in H3. lia.
    + unfold String.app, String.append in Ht; fold String.append in Ht.
      simplify_eq. by apply ws_prefix_None3 in Hp.
Qed.

Section Validation.

Context {browser : Host}.

(** The form passes every check of [validateForm]. *)
Lemma validateForm_empty (p : AnalysisParams) :
  validateForm p = ∅ ↔
  all_space (regionName p) = false ∧ startDate p ≠ "" ∧ endDate p ≠ "" ∧
  date_ge (Date_parse (startDate p)) (Date_parse (endDate p)) = false ∧
  range_exceeds (Date_parse (startDate p)) (Date_parse (endDate p)) = false ∧
  is_Some (geometry p).
Proof.
  split.
  - intros Hv. unfold validateForm in Hv.
    destruct (String.eqb (trim (regionName p)) "") eqn:Er;
    destruct (String.eqb (startDate p) "") eqn:Es;
    destruct (String.eqb (endDate p) "") eqn:Ee;
    destruct (date_ge (Date_parse (startDate p)) (Date_parse (endDate p))) eqn:Eg;
    destruct (range_exceeds (Date_parse (startDate p)) (Date_parse (endDate p))) eqn:Ex;
    destruct (geometry p) eqn:Egeo; simpl in Hv;
    try (by apply insert_non_empty in Hv).
    apply String.eqb_neq in Er, Es, Ee. split_and!; eauto.
    destruct (all_space (regionName p)) eqn:Ha; [|done].
    by apply trim_blank in Ha.
  - intros (Hr & Hs & He & Hg & Hx & [g Hgeo]). unfold validateForm.
    assert (String.eqb (trim (regionName p)) "" = false) as ->.
    { apply String.eqb_neq. rewrite trim_blank. by rewrite Hr. }
    apply String.eqb_neq in Hs as ->. apply String.eqb_neq in He as ->.
    by rewrite Hg, Hx, Hgeo.
Qed.

(** X1. [handleAnalysisSubmit] issues the generate request exactly for the
    forms that pass every check: a region name that is not blank, both
    dates entered, the end date neither at or before the start date nor
    more than 366 days after it, and a geometry.  For such a form the
    request carries the form as it is and the displayed errors are
    emptied.  For every other form nothing is issued: the list of requests
    sent and the requests in flight are as before, and all that changes is
    the displayed errors, which become the mapping of [validateForm], a
    mapping that is not empty. *)
Theorem submit_sends_exactly_the_valid_forms (w : World) :
  let p := analysisParams w in
  let valid :=
    all_space (regionName p) = false ∧ startDate p ≠ "" ∧ endDate p ≠ "" ∧
    date_ge (Date_parse (startDate p)) (Date_parse (endDate p)) = false ∧
    range_exceeds (Date_parse (startDate p)) (Date_parse (endDate p)) = false ∧
    is_Some (geometry p) in
  (valid → handleAnalysisSubmit w = issue (PostGenerate p) (set_errors ∅ w)) ∧
  (¬ valid →
     handleAnalysisSubmit w = set_errors (validateForm p) w ∧
     validateForm p ≠ ∅ ∧
     sent (handleAnalysisSubmit w) = sent w ∧
     inflight (handleAnalysisSubmit w) = inflight w).
Proof.
  intros p valid. unfold handleAnalysisSubmit. fold p. split.
  - intros Hv%validateForm_empty. by rewrite Hv.
  - intros Hn. assert (validateForm p ≠ ∅) as Hne.
    { intros Hv%validateForm_empty. by apply Hn. }
    destruct (0 <? size (validateForm p))%nat eqn:Hsz; [done|].
    apply Nat.ltb_ge in Hsz. exfalso. apply Hne, map_size_empty_iff. lia.
Qed.

(** Unfolds [validateForm] and splits on each of its tests. *)
Local Ltac split_validateForm p :=
  unfold validateForm;
  destruct (String.eqb (trim (regionName p)) "");
  destruct (String.eqb (startDate p) "");
  destruct (String.eqb (endDate p) "");
  destruct (date_ge (Date_parse (startDate p)) (Date_parse (endDate p)));
  destruct (range_exceeds (Date_parse (startDate p)) (Date_parse (endDate p)));
  destruct (geometry p); cbn [negb andb].

(** X2. The region name is reported as required exactly when it is
    blank, that is empty or made of white space only, where white space
    is what [trim] strips: the ASCII white space, the no-break space and
    the other spaces and line terminators of Unicode. *)
Theorem blank_region_name_is_required (p : AnalysisParams) :
  validateForm p !! "regionName" =
    if all_space (regionName p) then Some (VStr "Region name is required")
    else None.
Proof.
  assert (String.eqb (trim (regionName p)) "" = all_space (regionName p)) as E.
  { destruct (all_space (regionName p)) eqn:Ha.
    - apply String.eqb_eq. by apply trim_blank.
    - apply String.eqb_neq. rewrite trim_blank. by rewrite Ha. }
  unfold validateForm. rewrite E.
  destruct (all_space (regionName p));
    repeat case_match; by simplify_map_eq.
Qed.

(** X3. A date that is entered but is not a date is not reported: when
    both date fields are filled and one of them is an Invalid Date, the
    mapping has no entry for startDate and none for endDate. *)
Theorem unparseable_dates_pass_validation (p : AnalysisParams) :
  startDate p ≠ "" → endDate p ≠ "" →
  Date_parse (startDate p) = None ∨ Date_parse (endDate p) = None →
  validateForm p !! "startDate" = None ∧ validateForm p !! "endDate" = None.
Proof.
  intros Hs He Hp. unfold validateForm.
  apply String.eqb_neq in Hs as ->. apply String.eqb_neq in He as ->.
  assert (date_ge (Date_parse (startDate p)) (Date_parse (endDate p)) = false) as ->.
  { destruct Hp as [-> | ->]; [done|]. by destruct (Date_parse (startDate p)). }
  assert (range_exceeds (Date_parse (startDate p)) (Date_parse (endDate p)) = false) as ->.
  { destruct Hp as [-> | ->]; [done|]. by destruct (Date_parse (startDate p)). }
  cbn [negb andb]. repeat case_match; by simplify_map_eq.
Qed.

(** X4. When the end date is at or before the start date the mapping
    carries, on endDate, the message that the end date must be after the
    start date: the later range test cannot overwrite it. *)
Theorem end_before_start_message (p : AnalysisParams) :
  end_not_after_start p →
  validateForm p !! "endDate" = Some (VStr "End date must be after start date").
Proof.
  intros (Hs & He & s & e & Ps & Pe & Hle). unfold validateForm.
  apply String.eqb_neq in Hs as ->. apply String.eqb_neq in He as ->.
  rewrite Ps, Pe.
  assert (date_ge (Some s) (Some e) = true) as -> by (simpl; lia).
  assert (range_exceeds (Some s) (Some e) = false) as ->.
  { apply not_true_iff_false. rewrite range_exceeds_spec. unfold day_ms. lia. }
  cbn [negb andb]. repeat case_match; by simplify_map_eq.
Qed.

(** X5. The mapping of [validateForm] has no key besides regionName,
    startDate, endDate and geometry. *)
Theorem validation_error_keys (p : AnalysisParams) :
  dom (validateForm p) ⊆ ({[ "regionName"; "startDate"; "endDate"; "geometry" ]} : gset string).
Proof.
  split_validateForm p; rewrite ?dom_insert_L, ?dom_empty_L;
    intros k; rewrite ?elem_of_union, ?elem_of_singleton, ?elem_of_empty; tauto.
Qed.

End Validation.

Section Runs.

Context {browser : Host}.

(** Unfolds one turn of the event loop down to the field updates and
    splits on every test on the way. *)
Local Ltac break_step :=
  unfold step, settled, onmessage, handleAnalysisSubmit, handleAnalysisSubmit_settled,
    handleCancelJob, handleCancelJob_settled, poll_settled, poll_tick,
    loadJobResults, loadJobResults_settled, downloadMap, downloadMap_settled,
    onerror, pollJobStatus, clearInterval, close_current, startWebSocketConnection,
    store_results, unmount_viewer, props;
  repeat case_match; simplify_eq; simpl.

Lemma run_invariant (P : World → Prop) :
  (∀ w e, P w → P (step w e)) → ∀ evs w, P w → P (run w evs).
Proof.
  intros Hstep evs. unfold run.
  induction evs as [|e evs IH]; intros w Hw; cbn [foldl]; [done|].
  apply IH. by apply Hstep.
Qed.

(** What a turn can do to the sockets: nothing, open one more and point
    [wsRef] to it, or close one. *)
Lemma step_sockets (w : World) (e : event) :
  (sockets (step w e) = sockets w ∧ wsRef (step w e) = wsRef w) ∨
  (∃ job, sockets (step w e) = sockets w ++ [mkSocket job true] ∧
          wsRef (step w e) = Some (length (sockets w))) ∨
  (∃ k, sockets (step w e) = alter closed k (sockets w) ∧
        wsRef (step w e) = wsRef w).
Proof. break_step; eauto 6. Qed.

(** What a turn can do to the timers: nothing, start one for a socket
    that was open and is closed by the same turn, or clear one. *)
Lemma step_timers (w : World) (e : event) :
  (timers (step w e) = timers w ∧
   (sockets (step w e) = sockets w ∨
    (∃ job, sockets (step w e) = sockets w ++ [mkSocket job true]) ∨
    (∃ k, sockets (step w e) = alter closed k (sockets w)))) ∨
  (∃ k s, sockets w !! k = Some s ∧ ws_open s = true ∧
          timers (step w e) = timers w ++ [mkTimer (ws_job s) true] ∧
          sockets (step w e) = alter closed k (sockets w)) ∨
  (∃ t, timers (step w e) = alter cleared t (timers w) ∧
        sockets (step w e) = sockets w).
Proof. break_step; eauto 10. Qed.

(** X6. In every run from the first render, [wsRef.current] is the
    socket that was constructed last (and is null exactly when none was):
    the cleanup on unmount and the cancel handler, which close
    [wsRef.current], can only ever close the newest socket. *)
Theorem wsRef_points_to_newest_socket (p : AnalysisParams) (evs : list event) :
  wsRef_is_newest (run (initial_world p) evs).
Proof.
  apply run_invariant; [|done].
  intros w e. unfold wsRef_is_newest.
  destruct (step_sockets w e) as [[-> ->]|[(job & -> & ->)|(k & -> & ->)]].
  - done.
  - intros _. rewrite length_app. simpl. lia.
  - destruct (wsRef w); intros Hw; [by rewrite length_alter | by rewrite Hw].
Qed.

Lemma open_after_close (l : list Socket) (k : nat) :
  length (List.filter ws_open (alter closed k l)) +
    match l !! k with Some s => if ws_open s then 1 else 0 | None => 0 end =
  length (List.filter ws_open l).
Proof.
  revert k. induction l as [|a l IH]; intros k; [done|].
  destruct k as [|k]; simpl.
  - destruct (ws_open a); simpl; lia.
  - specialize (IH k). unfold alter in IH. destruct (ws_open a); simpl; lia.
Qed.

Lemma count_delete {A} (f : A → bool) (l : list A) (i : nat) (x : A) :
  l !! i = Some x →
  length (List.filter f (delete i l)) + (if f x then 1 else 0) =
  length (List.filter f l).
Proof.
  revert i. induction l as [|a l IH]; intros i Hi; [done|].
  destruct i as [|i]; simpl in *.
  - simplify_eq. destruct (f x); simpl; lia.
  - specialize (IH i Hi). destruct (f a); simpl; lia.
Qed.

(** X9. In every run from the first render there are never more polling
    timers than closed sockets: a timer is only ever started for a socket
    that was open and fails, once.  So the active subscriptions (open
    sockets and running timers) never outnumber the sockets constructed,
    one per accepted submission. *)
Theorem at_most_one_timer_per_failed_socket (p : AnalysisParams) (evs : list event) :
  let w := run (initial_world p) evs in
  (length (timers w) + open_sockets w ≤ length (sockets w))%nat ∧
  (subscriptions w ≤ length (sockets w))%nat.
Proof.
  intros w.
  assert (length (timers w) + open_sockets w ≤ length (sockets w))%nat as Hinv.
  { unfold w. apply run_invariant; [|unfold open_sockets; simpl; lia].
    clear. intros w e. unfold open_sockets.
    destruct (step_timers w e)
      as [[-> [-> | [(job & ->) | (k & ->)]]]
         |[(k & s & Hk & Ho & -> & ->)|(t & -> & ->)]].
    - done.
    - rewrite List.filter_app, !length_app. simpl. lia.
    - pose proof (open_after_close (sockets w) k). rewrite length_alter. lia.
    - pose proof (open_after_close (sockets w) k) as Hc. rewrite Hk, Ho in Hc.
      rewrite length_alter, length_app. simpl. lia.
    - by rewrite length_alter. }
  split; [done|].
  assert (active_timers w ≤ length (timers w))%nat; [|unfold subscriptions; lia].
  unfold active_timers. apply List.filter_length_le.
Qed.

(** No outstanding export belongs to an instance that is not mounted
    yet. *)
Lemma no_exports_of_later_instance (n : nat) (l : list request) :
  Forall (fun r => match r with
                   | PostExport inst _ _ _ => (inst ≤ n)%nat
                   | _ => True
                   end) l →
  length (List.filter (is_export_of (S n)) l) = 0.
Proof.
  induction 1 as [|r l Hr _ IH]; [done|].
  simpl. destruct r as [| | | |inst job f z]; simpl; try exact IH.
  destruct (Nat.eqb_spec inst (S n)); [lia | exact IH].
Qed.

Lemma later_instance_known (n : nat) (l : list request) :
  Forall (fun r => match r with
                   | PostExport inst _ _ _ => (inst ≤ n)%nat
                   | _ => True
                   end) l →
  Forall (fun r => match r with
                   | PostExport inst _ _ _ => (inst ≤ S n)%nat
                   | _ => True
                   end) l.
Proof.
  intros HF. eapply Forall_impl; [exact HF|].
  intros [| | | |inst ? ? ?]; try done. lia.
Qed.

(** Closes the goals of [exports_tracked_step] once the turn is
    unfolded. *)
Local Ltac close_tracked :=
  simpl in *;
  rewrite ?List.filter_app, ?length_app, ?Forall_app, ?Forall_singleton;
  simpl; rewrite ?Nat.eqb_refl; simpl;
  split_and?;
  first [ done | lia | congruence | by apply later_instance_known
        | by match goal with Hn : ?x = ?x → _ |- _ => specialize (Hn eq_refl) end
        | by intros ?; simplify_eq
        | by match goal with
             | H : (?a =? ?a)%nat = false |- _ => rewrite Nat.eqb_refl in H
             | H : (_ =? _)%nat = true |- _ => apply Nat.eqb_eq in H
             end
        | by match goal with
             | Hn : results ?w = None → _, Hr : results ?w = None |- _ =>
                 specialize (Hn Hr)
             end
        | by match goal with Hn : results ?w = None → _ |- _ => exact Hn end ].

Lemma exports_tracked_step (w : World) (e : event) :
  exports_tracked w → exports_tracked (step w e).
Proof.
  unfold exports_tracked, exports_known, exports_of.
  intros (Hk & Hn & Hc).
  destruct e as [| | |f r|k payload|k|t|i r].
  8: { unfold step. destruct (inflight w !! i) as [req|] eqn:Hi; [|done].
       pose proof (count_delete (is_export_of (viewer w)) _ _ _ Hi) as Hd.
       pose proof (Forall_delete _ _ i Hk) as Hkd.
       pose proof (no_exports_of_later_instance _ _ Hkd) as Hl.
       assert (match req with
               | PostExport inst _ _ _ => (inst ≤ viewer w)%nat
               | _ => True
               end) as Hreq.
       { rewrite Forall_forall in Hk. apply Hk. eapply list_elem_of_lookup_2, Hi. }
       destruct req as [?|? ?|?|?|inst job f z], r as [d| | |d];
         cbn [is_export_of] in Hd;
         try (destruct (Nat.eqb_spec inst (viewer w)); simplify_eq);
         destruct (isExporting w) eqn:Hx;
         break_step; close_tracked. }
  all: destruct (isExporting w) eqn:Hx; break_step; close_tracked.
Qed.

(** X10. In every run from the first render the mounted instance of
    ResultsViewer has at most one export request outstanding, and it has
    one exactly while its [isExporting] is set: its download button stays
    disabled until its request settles, whether it succeeds or fails.
    While no results are stored no viewer is mounted and the flag is not
    set.  (A request of an earlier instance, unmounted by a preview with a
    falsy body, can still be outstanding next to it.) *)
Theorem exports_are_single_flight (p : AnalysisParams) (evs : list event) :
  let w := run (initial_world p) evs in
  exports_of (viewer w) w = (if isExporting w then 1 else 0) ∧
  (results w = None → isExporting w = false).
Proof.
  intros w.
  assert (exports_tracked w) as (_ & Hn & Hc); [|done].
  apply run_invariant; [apply exports_tracked_step|].
  unfold exports_tracked, exports_known, exports_of. by simpl.
Qed.

(** X11. The stored results change only when a preview request
    resolves: a body that is an object (or otherwise truthy) replaces
    them, a body that is empty, [null] or otherwise falsy clears them.
    Every other turn leaves them as they are: a rejected preview request,
    a failure of the job, a cancel, or the submission of another job. *)
Theorem results_follow_preview_responses (w : World) (e : event) :
  results (step w e) =
    match e with
    | Settle i r =>
        match inflight w !! i, r with
        | Some (GetPreview _), Resolved data => Some data
        | Some (GetPreview _), (ResolvedFalsy | ResolvedNullish) => None
        | _, _ => results w
        end
    | _ => results w
    end.
Proof.
  destruct e as [| | |f r|k payload|k|t|i r]; by break_step.
Qed.

Lemma no_preview_step (w : World) (e : event) :
  no_preview w → completes w e = false → no_preview (step w e).
Proof.
  unfold no_preview. intros [Hr Hf] Hc.
  destruct e as [| | |f r|k payload|k|t|i r].
  8: { unfold step, completes in *.
       destruct (inflight w !! i) as [req|] eqn:Hi; [|done].
       assert (is_preview req = false) as Hreq.
       { rewrite Forall_forall in Hf. apply Hf. eapply list_elem_of_lookup_2, Hi. }
       pose proof (Forall_delete _ _ i Hf) as Hd.
       destruct req, r; try done; break_step;
         rewrite ?Forall_app, ?Forall_singleton; by split_and?. }
  all: unfold completes in Hc; break_step;
    rewrite ?Forall_app, ?Forall_singleton; by split_and?.
Qed.

(** X12. Results only follow a completion.  From a state with no preview
    stored and none on its way, a run in which the client processes no
    completion ends with no results stored. *)
Theorem no_results_without_completion (w : World) (evs : list event) :
  no_preview w → completions w evs = 0 → results (run w evs) = None.
Proof.
  intros Hn Hc.
  assert (no_preview (run w evs)) as [Hr _]; [|done].
  unfold run. revert w Hn Hc.
  induction evs as [|e evs IH]; intros w Hn Hc; cbn [foldl completions] in *; [done|].
  destruct (completes w e) eqn:He; [lia|].
  apply IH; [by apply no_preview_step | lia].
Qed.

End Runs.

Section Flows.

Context {browser : Host}.

Lemma valid_form_no_errors (p : AnalysisParams) :
  all_space (regionName p) = false → startDate p ≠ "" → endDate p ≠ "" →
  date_ge (Date_parse (startDate p)) (Date_parse (endDate p)) = false →
  range_exceeds (Date_parse (startDate p)) (Date_parse (endDate p)) = false →
  is_Some (geometry p) →
  validateForm p = ∅.
Proof. intros. by apply validateForm_empty. Qed.

Lemma lookup_last_issued (l : list request) (r : request) :
  (l ++ [r]) !! length l = Some r.
Proof. by rewrite lookup_app_r, Nat.sub_diag. Qed.

Lemma delete_last_issued (l : list request) (r : request) :
  delete (length l) (l ++ [r]) = l.
Proof.
  induction l as [|a l IH]; [done|]. simpl. f_equal. exact IH.
Qed.

(** The request issued last settles: its continuation runs on the world
    in which it is no longer outstanding. *)
Lemma settle_last_issued (w : World) (r : request) (resp : response) :
  step (issue r w) (Settle (length (inflight w)) resp) =
    settled r resp (set_inflight (fun _ => inflight w) (issue r w)).
Proof.
  unfold step. cbn [inflight issue]. rewrite lookup_last_issued.
  f_equal. unfold set_inflight. cbn [inflight issue]. by rewrite delete_last_issued.
Qed.

Lemma generate_click (w : World) :
  validateForm (analysisParams w) = ∅ → isRunning (jobStatus w) = false →
  step w ClickGenerate = issue (PostGenerate (analysisParams w)) (set_errors ∅ w).
Proof.
  intros Hv Hr. unfold step. rewrite Hr. unfold handleAnalysisSubmit.
  by rewrite Hv, map_size_empty.
Qed.


(** X14. A rejected submission.  Under the same conditions, when the
    request fails the job, the sockets and the timers are what they were:
    the only traces are one console message and an error mapping with the
    single key submit, holding the detail of the response or, when that is
    missing or empty, the default text. *)
Theorem rejected_submission (w : World) (detail : value) :
  validateForm (analysisParams w) = ∅ → isRunning (jobStatus w) = false →
  let w' := run w [ClickGenerate; Settle (length (inflight w)) (Rejected detail)] in
  jobStatus w' = jobStatus w ∧ sockets w' = sockets w ∧ wsRef w' = wsRef w ∧
  timers w' = timers w ∧ inflight w' = inflight w ∧
  errors w' = {[ "submit" := or_else detail (VStr "Failed to start analysis") ]} ∧
  console w' = console w ++ ["Failed to start analysis:"].
Proof.
  intros Hv Hr w'.
  assert (w' = settled (PostGenerate (analysisParams w)) (Rejected detail)
                 (set_inflight (fun _ => inflight w)
                    (issue (PostGenerate (analysisParams w)) (set_errors ∅ w)))) as ->.
  { unfold w', run. cbn [foldl]. rewrite (generate_click w Hv Hr).
    apply (settle_last_issued (set_errors ∅ w)). }
  done.
Qed.

(** X15. Nothing guards against a double submission.  While the job is
    not yet pending or running, every click on Generate with a valid form
    issues one more generate request: n clicks in a row leave n more
    generate requests outstanding. *)
Theorem every_click_submits_again (n : nat) (w : World) :
  validateForm (analysisParams w) = ∅ → isRunning (jobStatus w) = false →
  outstanding_generates (run w (replicate n ClickGenerate)) =
    n + outstanding_generates w.
Proof.
  unfold run. revert w.
  induction n as [|n IH]; intros w Hv Hr; cbn [replicate foldl]; [done|].
  rewrite (generate_click w Hv Hr). rewrite IH; [|done|done].
  unfold outstanding_generates. simpl.
  rewrite List.filter_app, length_app. simpl. lia.
Qed.

(** X16. The last progress frame wins.  Of two progress_update frames
    handled one after the other on an open socket, the first leaves no
    trace in the job: its state is what the second frame alone would have
    given. *)
Theorem last_progress_frame_wins
    (w : World) (k : nat) (s : Socket) (p1 p2 : string) (d1 d2 : object) :
  sockets w !! k = Some s → ws_open s = true →
  JSON_parse p1 = Some (DecObj d1) → prop d1 "type" = VStr "progress_update" →
  JSON_parse p2 = Some (DecObj d2) → prop d2 "type" = VStr "progress_update" →
  jobStatus (run w [WsMessage k p1; WsMessage k p2]) =
    jobStatus (run w [WsMessage k p2]) ∧
  jobStatus (run w [WsMessage k p1; WsMessage k p2]) =
    mkJob (VStr "running") (prop d2 "progress") (prop d2 "message")
          (jobId (jobStatus w)).
Proof.
  intros Hk Ho P1 T1 P2 T2. unfold run. cbn [foldl].
  unfold step, onmessage. rewrite Hk, Ho, P1, T1. simpl.
  by rewrite Hk, Ho, P2, T2.
Qed.

(** X17. Whatever arrives on the push channel (any frame, decodable or
    not, on any socket) changes neither the job id nor the stored results,
    the displayed errors, the form, [wsRef], the sockets, the timers or
    the console: a frame can only touch the status, the progress and the
    message of the job, and request the preview. *)
Theorem frames_touch_only_the_job_state (w : World) (k : nat) (payload : string) :
  let w' := step w (WsMessage k payload) in
  jobId (jobStatus w') = jobId (jobStatus w) ∧
  results w' = results w ∧ errors w' = errors w ∧
  analysisParams w' = analysisParams w ∧ wsRef w' = wsRef w ∧
  sockets w' = sockets w ∧ timers w' = timers w ∧ console w' = console w.
Proof.
  intros w'. unfold w', step.
  destruct (sockets w !! k) as [s|]; [|done].
  destruct (ws_open s); [|done]. unfold onmessage.
  destruct (JSON_parse payload) as [[|data]|]; try done.
  destruct (is_str (prop data "type") "progress_update"); [done|].
  destruct (is_str (prop data "type") "job_completed"); [done|].
  by destruct (is_str (prop data "type") "job_failed").
Qed.

Lemma alter_closed_twice (k : nat) (l : list Socket) :
  alter closed k (alter closed k l) = alter closed k l.
Proof.
  revert k. induction l as [|a l IH]; intros k; [done|].
  destruct k as [|k]; simpl; [done|].
  f_equal. apply IH.
Qed.

(** X18. Closing the current socket twice is closing it once: the
    cleanup on unmount and the close of the cancel handler can follow each
    other in any order and number. *)
Theorem close_current_is_idempotent (w : World) :
  close_current (close_current w) = close_current w.
Proof.
  unfold close_current. destruct (wsRef w) as [k|] eqn:Hw; simpl.
  - rewrite Hw. unfold set_sockets. simpl. f_equal. apply alter_closed_twice.
  - by rewrite Hw.
Qed.

(** X19. An acknowledged cancel on the push channel.  When the current
    socket is open, the acknowledgement resets the job to idle and closes
    that socket: one open socket less, and no frame that still arrives on
    it is applied. *)
Theorem acknowledged_cancel_closes_the_socket
    (w : World) (k : nat) (s : Socket) (d : object) (payload : string) :
  wsRef w = Some k → sockets w !! k = Some s → ws_open s = true →
  let w' := handleCancelJob_settled (Resolved d) w in
  jobStatus w' = idle_job ∧
  sockets w' !! k = Some (closed s) ∧
  S (open_sockets w') = open_sockets w ∧
  step w' (WsMessage k payload) = w'.
Proof.
  intros Hw Hk Ho w'.
  assert (sockets w' = alter closed k (sockets w)) as Hs.
  { unfold w', handleCancelJob_settled, close_current. simpl. by rewrite Hw. }
  assert (sockets w' !! k = Some (closed s)) as Hk'.
  { by rewrite Hs, list_lookup_alter_eq, Hk. }
  split_and!.
  - unfold w', handleCancelJob_settled, close_current. simpl. by rewrite Hw.
  - done.
  - unfold open_sockets. rewrite Hs.
    pose proof (open_after_close (sockets w) k) as Hc. rewrite Hk, Ho in Hc. lia.
  - unfold step. by rewrite Hk'.
Qed.

(** X20. A cancel does not stop the polling.  When a polling timer is
    running, the acknowledgement of a cancel resets the job to idle but
    leaves the timer as it is: its next tick issues a status request, and
    the answer puts the job back under the polled id with the status the
    server reports. *)
Theorem cancel_does_not_stop_polling
    (w : World) (t : nat) (tm : Timer) (d st : object) :
  timers w !! t = Some tm → t_active tm = true →
  let w1 := handleCancelJob_settled (Resolved d) w in
  let w2 := run w1 [TimerTick t; Settle (length (inflight w1)) (Resolved st)] in
  jobStatus w1 = idle_job ∧ timers w1 = timers w ∧
  jobStatus w2 = mkJob (prop st "status") (prop st "progress") (prop st "message")
                       (t_job tm).
Proof.
  intros Ht Ha w1 w2.
  assert (timers w1 = timers w) as Ht1.
  { unfold w1, handleCancelJob_settled, close_current. simpl.
    by destruct (wsRef w). }
  assert (jobStatus w1 = idle_job) as Hj.
  { unfold w1, handleCancelJob_settled, close_current. simpl.
    by destruct (wsRef w). }
  split_and!; [done|done|].
  assert (w2 = settled (GetStatus t (t_job tm)) (Resolved st)
                 (set_inflight (fun _ => inflight w1)
                    (issue (GetStatus t (t_job tm)) w1))) as ->.
  { unfold w2, run. cbn [foldl]. unfold step at 2. rewrite Ht1, Ht, Ha.
    apply settle_last_issued. }
  unfold settled, poll_settled, loadJobResults, clearInterval.
  repeat case_match; done.
Qed.

End Flows.

Section Display.

Context {browser : Host} {coerce : Coercion}.

(** A literal of plain ASCII characters in front of a string adds no
    white space to it. *)
Lemma no_space_plain_app (lit rest : string) :
  plain_ascii lit = true → no_space (lit +:+ rest) = no_space rest.
Proof.
  induction lit as [|c lit IH]; [done|].
  cbn [plain_ascii]. rewrite !andb_true_iff, N.ltb_lt, negb_true_iff.
  intros [[Hb Hs] Hl].
  change (String c lit +:+ rest) with (String c (lit +:+ rest)).
  rewrite no_space_eq, ws_prefix_ascii by done. by apply IH.
Qed.

(** X21. The name of an exported file has no white space when the start
    date and the format have none: every run of white space in the region
    name has become one underscore.  A region name without white space is
    used as it is. *)
Theorem export_filename_has_no_white_space (p : AnalysisParams) (format : string) :
  no_space (startDate p) = true → no_space format = true →
  no_space (export_filename p format) = true ∧
  (no_space (regionName p) = true →
   export_filename p format =
     regionName p +:+ "_analysis_" +:+ startDate p +:+ "." +:+ format).
Proof.
  intros Hd Hf. unfold export_filename, replace_ws. split.
  - apply (no_space_app_ascii _ "_" ("analysis_" +:+ startDate p +:+ "." +:+ format));
      [done|apply replace_ws_go_no_space|].
    change (no_space ("_analysis_" +:+ startDate p +:+ "." +:+ format) = true).
    rewrite (no_space_plain_app "_analysis_") by done.
    apply (no_space_app_ascii _ "." format); [done|done|].
    change (no_space ("." +:+ format) = true).
    by rewrite (no_space_plain_app ".").
  - intros Hr. by rewrite (replace_ws_go_id _ _ Hr).
Qed.

Lemma js_gt_mono (v : value) (a b : Z) :
  (a <= b)%Z → js_gt v b = true → js_gt v a = true.
Proof.
  unfold js_gt. intros Hab. destruct (ToNumber v) as [q|]; [|done].
  rewrite !negb_true_iff, <- !not_true_iff_false, !Qle_bool_iff.
  intros Hb Ha. apply Hb. eapply Qle_trans; [exact Ha|].
  by rewrite <- Zle_Qle.
Qed.

(** X22. While the progress panel is rendered, that is while the job is
    running or pending, the bar never has the failure colour: it is
    amber, blue or green. *)
Theorem rendered_panel_is_never_red (j : JobStatus) :
  isRunning j = true →
  getProgressColor j ∈ ["#f59e0b"; "#3b82f6"; "#10b981"].
Proof.
  unfold isRunning, getProgressColor. intros Hr.
  assert (is_str (status j) "failed" = false) as ->.
  { destruct (status j) as [| | | |st|]; try done. simpl in *.
    apply orb_true_iff in Hr as [Hr|Hr]; apply String.eqb_eq in Hr as ->; done. }
  repeat case_match; set_unfold; tauto.
Qed.

(** X23. The stages of the panel complete in order: whatever the
    progress value is, the completed stages are the first ones of the
    five, and the pending stages the rest. *)
Theorem completed_stages_form_a_prefix (j : JobStatus) :
  ∃ n, (n ≤ 5)%nat ∧
       progress_stages j = replicate n "completed" ++ replicate (5 - n) "pending".
Proof.
  unfold progress_stages, stage_class. cbn [fmap list_fmap].
  pose proof (js_gt_mono (progress j) 10 30 ltac:(lia)) as H1.
  pose proof (js_gt_mono (progress j) 30 50 ltac:(lia)) as H2.
  pose proof (js_gt_mono (progress j) 50 70 ltac:(lia)) as H3.
  pose proof (js_gt_mono (progress j) 70 90 ltac:(lia)) as H4.
  destruct (js_gt (progress j) 90).
  { rewrite H4, H3, H2, H1 by auto. exists 5; split; [lia | reflexivity]. }
  destruct (js_gt (progress j) 70).
  { rewrite H3, H2, H1 by auto. exists 4; split; [lia | reflexivity]. }
  destruct (js_gt (progress j) 50).
  { rewrite H2, H1 by auto. exists 3; split; [lia | reflexivity]. }
  destruct (js_gt (progress j) 30).
  { rewrite H1 by auto. exists 2; split; [lia | reflexivity]. }
  destruct (js_gt (progress j) 10);
    [exists 1 | exists 0]; (split; [lia | reflexivity]).
Qed.

(** X24. A progress_update frame that carries no progress leaves the
    job running with an undefined progress, and the panel then shows the
    bar in green with none of the five stages completed. *)
Theorem progress_frame_without_progress
    (w : World) (k : nat) (s : Socket) (payload : string) (data : object) :
  sockets w !! k = Some s → ws_open s = true →
  JSON_parse payload = Some (DecObj data) →
  prop data "type" = VStr "progress_update" → data !! "progress" = None →
  let j := jobStatus (step w (WsMessage k payload)) in
  isRunning j = true ∧ progress j = VUndefined ∧
  getProgressColor j = "#10b981" ∧
  progress_stages j = replicate 5 "pending".
Proof.
  intros Hk Ho Hp Ht Hm j.
  assert (j = mkJob (VStr "running") VUndefined (prop data "message")
                    (jobId (jobStatus w))) as ->.
  { unfold j, step, onmessage. rewrite Hk, Ho, Hp, Ht. simpl.
    unfold prop at 1. by rewrite Hm. }
  done.
Qed.

(** X25. A change of the drawn geometry stores the geometry, also when
    the change is the deletion of the drawing: the other fields of the
    form and the other entries of the error mapping stay, and a validation
    of the form reports the geometry exactly when the drawing was deleted.
    Whether the geometry error is hidden depends on the render that
    created the function called.  A function of a render in which the
    error was displayed hides it.  A function of an earlier render, such
    as the callbacks of the first render kept by the caller, which
    captured the empty errors, leaves the error mapping as it is, so that
    a geometry error that is displayed stays displayed after an area has
    been drawn. *)
Theorem geometry_change_and_its_error (captured : object) (g : option object)
    (w : World) :
  let w' := handleGeometryChange captured g w in
  geometry (analysisParams w') = g ∧
  (∀ k, k ≠ "geometry" → errors w' !! k = errors w !! k) ∧
  regionName (analysisParams w') = regionName (analysisParams w) ∧
  startDate (analysisParams w') = startDate (analysisParams w) ∧
  endDate (analysisParams w') = endDate (analysisParams w) ∧
  analysisType (analysisParams w') = analysisType (analysisParams w) ∧
  validateForm (analysisParams w') !! "geometry" =
    match g with
    | None => Some (VStr "Please define an analysis area on the map")
    | Some _ => None
    end ∧
  (truthy (prop captured "geometry") = true → geometry_error_shown w' = false) ∧
  (truthy (prop captured "geometry") = false →
   errors w' = errors w ∧ geometry_error_shown w' = geometry_error_shown w).
Proof.
  intros w'. unfold w', handleGeometryChange, geometry_error_shown.
  destruct (truthy (prop captured "geometry")) eqn:Hg; simpl.
  all: split_and!; try done.
  - intros k Hk. by rewrite lookup_insert_ne.
  - unfold validateForm. simpl. destruct g; repeat case_match; by simplify_map_eq.
  - intros _. unfold prop. by rewrite lookup_insert_eq.
  - unfold validateForm. simpl. destruct g; repeat case_match; by simplify_map_eq.
Qed.

End Display.

(** * The component on concrete runs *)

#[local] Existing Instance Sample.host.

Import Sample.

(** The end-to-end scenario of the specification: progress frames, then
    completion; one preview request, and the statistics are stored. *)
Example end_to_end_completed :
  let w := run submitted
             [WsMessage 0 frame_progress45; WsMessage 0 frame_completed;
              Settle 0 (Resolved preview_body)] in
  jobStatus w = mkJob (VStr "completed") (VNum 100)
                  (VStr "Analysis completed successfully") (VStr "job-1") ∧
  sent w = [PostGenerate zimbabwe; GetPreview (VStr "job-1")] ∧
  results w = Some preview_body.
Proof. vm_compute. by split_and!. Qed.

(** A submission the server accepts leaves the job pending at progress 0,
    with one open socket, before any frame has arrived. *)
Example submitted_is_pending :
  jobStatus submitted =
    mkJob (VStr "pending") (VNum 0) (VStr "Starting analysis...") (VStr "job-1") ∧
  sockets submitted = [mkSocket (VStr "job-1") true] ∧
  wsRef submitted = Some 0 ∧ timers submitted = [].
Proof. vm_compute. by split_and!. Qed.

(** The failing scenario: the message of the server is kept, no preview. *)
Example end_to_end_failed :
  let w := run submitted [WsMessage 0 frame_progress45; WsMessage 0 frame_failed] in
  jobStatus w = mkJob (VStr "failed") (VNum 45) (VStr "GEE quota exceeded")
                  (VStr "job-1") ∧
  preview_fetches w = 0.
Proof. vm_compute. by split_and!. Qed.

(** A job_failed frame without a message gets the default one. *)
Example failure_without_message :
  jobStatus (run submitted [WsMessage 0 frame_failed_bare]) =
    mkJob (VStr "failed") (VNum 0) (VStr "Analysis failed") (VStr "job-1").
Proof. vm_compute. reflexivity. Qed.

Lemma submit_rejects_invalid_request_witness :
  fails_validation (analysisParams (initial_world two_years)) ∧
  (let w' := handleAnalysisSubmit (initial_world two_years) in
   errors w' !! "endDate" = Some (VStr "Date range cannot exceed 366 days") ∧
   sent w' = []).
Proof.
  assert (range_over two_years) as Hr.
  { unfold range_over. split_and!; [done | done |].
    exists 1698796800000%Z, 1765756800000%Z.
    split_and!; [vm_compute; reflexivity | vm_compute; reflexivity |
                 vm_compute; reflexivity]. }
  assert (fails_validation (analysisParams (initial_world two_years))) as Hf.
  { right; right; right; right; left. exact Hr. }
  split; [exact Hf|].
  destruct (submit_rejects_invalid_request (initial_world two_years) Hf)
    as (_ & _ & _ & Hs & _ & _ & _ & _ & _ & Hrange & _).
  split; [exact (Hrange Hr) | exact Hs].
Defined.

Lemma job_completed_frame_completes_witness :
  status (jobStatus submitted) = VStr "pending" ∧
  ∃ w', onmessage (VStr "job-1") frame_completed submitted = Returns w' ∧
        status (jobStatus w') = VStr "completed" ∧
        progress (jobStatus w') = VNum 100 ∧
        jobId (jobStatus w') = jobId (jobStatus submitted) ∧
        sent w' = sent submitted ++ [GetPreview (VStr "job-1")] ∧
        inflight w' = inflight submitted ++ [GetPreview (VStr "job-1")].
Proof.
  split; [reflexivity|].
  apply (job_completed_frame_completes (VStr "job-1") frame_completed
           {[ "type" := VStr "job_completed" ]} submitted).
  - vm_compute; reflexivity.
  - reflexivity.
  - left. reflexivity.
Defined.

Lemma job_failed_frame_keeps_id_and_progress_witness :
  let w := run submitted [WsMessage 0 frame_progress45] in
  progress (jobStatus w) = VNum 45 ∧
  ∃ w', onmessage (VStr "job-1") frame_failed w = Returns w' ∧
        jobId (jobStatus w') = jobId (jobStatus w) ∧
        progress (jobStatus w') = progress (jobStatus w) ∧
        status (jobStatus w') = VStr "failed" ∧
        message (jobStatus w') =
          or_else (prop {[ "type" := VStr "job_failed";
                           "message" := VStr "GEE quota exceeded" ]} "message")
                  (VStr "Analysis failed") ∧
        w' = set_jobStatus (fun _ => jobStatus w') w.
Proof.
  split; [reflexivity|].
  apply (job_failed_frame_keeps_id_and_progress (VStr "job-1") frame_failed
           {[ "type" := VStr "job_failed"; "message" := VStr "GEE quota exceeded" ]}).
  - vm_compute; reflexivity.
  - reflexivity.
Defined.

Lemma cancel_is_a_noop_outside_pending_and_running_witness :
  status (jobStatus completed) = VStr "completed" ∧
  isRunning (jobStatus completed) = false ∧
  step completed ClickCancel = completed ∧
  cancel_requests (step completed ClickGenerate) = cancel_requests completed.
Proof.
  assert (isRunning (jobStatus completed) = false) as Hr by (vm_compute; reflexivity).
  split; [vm_compute; reflexivity|]. split; [exact Hr|].
  destruct (cancel_is_a_noop_outside_pending_and_running completed Hr) as [Hc He].
  split; [exact Hc | exact (He ClickGenerate)].
Defined.

Lemma export_without_job_id_is_noop_witness :
  results previewed = Some preview_body ∧
  preview_body !! "job_id" = None ∧
  downloadMap preview_body "png" "300" previewed = previewed ∧
  step previewed (ClickDownload "png" "300") = previewed.
Proof.
  assert (results previewed = Some preview_body) as Hr by (vm_compute; reflexivity).
  assert (preview_body !! "job_id" = None) as Hj by (vm_compute; reflexivity).
  split; [exact Hr|]. split; [exact Hj|].
  exact (export_without_job_id_is_noop preview_body "png" "300" previewed Hr Hj).
Defined.

Lemma every_tick_issues_a_status_request_witness :
  timers polling !! 0 = Some (mkTimer (VStr "job-1") true) ∧
  outstanding_polls (run polling (replicate 3 (TimerTick 0))) =
    3 + outstanding_polls polling.
Proof.
  assert (timers polling !! 0 = Some (mkTimer (VStr "job-1") true)) as Ht
    by (vm_compute; reflexivity).
  split; [exact Ht|].
  exact (every_tick_issues_a_status_request 0 (mkTimer (VStr "job-1") true) 3
           polling Ht eq_refl).
Defined.

(** C1. After the push channel has delivered job_completed, or
    job_failed, the socket is still open, and a progress frame that
    arrives on it next is applied: the job is running again.  On the
    polling path the timer is cleared on completion, yet the answer to a
    status request that was still outstanding is applied as well. *)
Theorem late_frame_after_terminal_state :
  let done_ := run submitted [WsMessage 0 frame_progress45; WsMessage 0 frame_completed] in
  let failed := run submitted [WsMessage 0 frame_failed] in
  let polled := run polling [TimerTick 0; TimerTick 0;
                             Settle 0 (status_body "completed" 100 "Analysis complete")] in
  status (jobStatus done_) = VStr "completed" ∧
  sockets done_ = [mkSocket (VStr "job-1") true] ∧
  jobStatus (step done_ (WsMessage 0 frame_progress45)) =
    mkJob (VStr "running") (VNum 45) (VStr "Loading satellite data") (VStr "job-1") ∧
  status (jobStatus failed) = VStr "failed" ∧
  sockets failed = [mkSocket (VStr "job-1") true] ∧
  jobStatus (step failed (WsMessage 0 frame_progress45)) =
    mkJob (VStr "running") (VNum 45) (VStr "Loading satellite data") (VStr "job-1") ∧
  status (jobStatus polled) = VStr "completed" ∧
  timers polled = [mkTimer (VStr "job-1") false] ∧
  jobStatus (step polled (Settle 0 (status_body "running" 80 "Rendering"))) =
    mkJob (VStr "running") (VNum 80) (VStr "Rendering") (VStr "job-1").
Proof. vm_compute. by split_and!. Qed.

(** C7. A frame that is not JSON makes [onmessage] throw a SyntaxError
    that nothing in the component catches: delivered on the open socket it
    is reported by the browser only, the component logs nothing, starts no
    polling and keeps the job as it was; the next frame is handled as
    usual. *)
Theorem truncated_frame_escapes_the_handler :
  let w := step submitted (WsMessage 0 frame_truncated) in
  onmessage (VStr "job-1") frame_truncated submitted = Throws SyntaxError ∧
  w = report_uncaught SyntaxError submitted ∧
  uncaught w = [SyntaxError] ∧ console w = [] ∧ timers w = [] ∧
  jobStatus w = jobStatus submitted ∧
  status (jobStatus (step w (WsMessage 0 frame_completed))) = VStr "completed".
Proof. vm_compute. by split_and!. Qed.

(** C2 fails: a request submitted after job-1 completed opens a second
    socket while the first is still open, and a frame that then arrives on
    the first socket is applied to job-2. *)
Lemma second_subscribe_leaves_first_socket_open :
  subscriptions resubmitted = 2 ∧
  ¬ (subscriptions resubmitted ≤ 1)%nat ∧
  sockets resubmitted = [mkSocket (VStr "job-1") true; mkSocket (VStr "job-2") true] ∧
  jobStatus resubmitted =
    mkJob (VStr "pending") (VNum 0) (VStr "Starting analysis...") (VStr "job-2") ∧
  jobStatus (step resubmitted (WsMessage 0 frame_progress45)) =
    mkJob (VStr "running") (VNum 45) (VStr "Loading satellite data") (VStr "job-2").
Proof. vm_compute. split_and!; try done. lia. Qed.

(** C6 fails: when two status requests are outstanding and both answer
    completed, the preview is requested twice in one run; and when a
    job_failed frame follows job_completed the run ends in failed with
    the preview requested. *)
Lemma overlapping_polls_fetch_preview_twice :
  let answer := Settle 0 (status_body "completed" 100 "Analysis complete") in
  let w := run polling [TimerTick 0; TimerTick 0; answer; answer] in
  let w2 := run submitted [WsMessage 0 frame_completed; WsMessage 0 frame_failed] in
  status (jobStatus w) = VStr "completed" ∧
  preview_fetches w = 2 ∧
  status (jobStatus w2) = VStr "failed" ∧
  preview_fetches w2 = 1.
Proof. vm_compute. by split_and!. Qed.

(** C8 fails: two ticks with no answer in between leave two status
    requests outstanding. *)
Lemma two_ticks_two_outstanding_polls :
  let w := run polling [TimerTick 0; TimerTick 0] in
  inflight w = [GetStatus 0 (VStr "job-1"); GetStatus 0 (VStr "job-1")] ∧
  outstanding_polls w = 2 ∧
  ¬ (outstanding_polls w ≤ 1)%nat.
Proof. vm_compute. split_and!; try done. lia. Qed.

(** * The further properties on concrete inputs *)

Lemma submit_sends_exactly_the_valid_forms_witness :
  handleAnalysisSubmit (initial_world zimbabwe) =
    issue (PostGenerate zimbabwe) (set_errors ∅ (initial_world zimbabwe)) ∧
  (let w' := handleAnalysisSubmit (initial_world Scenes.blank_region) in
   errors w' = {[ "regionName" := VStr "Region name is required" ]} ∧
   sent w' = [] ∧ inflight w' = []).
Proof.
  split.
  - apply (proj1 (submit_sends_exactly_the_valid_forms (initial_world zimbabwe))).
    split_and!; [vm_compute; reflexivity | discriminate | discriminate
                | vm_compute; reflexivity | vm_compute; reflexivity
                | by eexists ].
  - destruct (proj2 (submit_sends_exactly_the_valid_forms
                       (initial_world Scenes.blank_region))) as (He & _ & Hs & Hi).
    { intros (Hr & _). vm_compute in Hr. discriminate Hr. }
    split_and!; [|exact Hs | exact Hi].
    rewrite He. vm_compute. reflexivity.
Defined.

(** A region name made of a no-break space and a space is blank. *)
Example blank_region_name_with_no_break_space :
  trim (regionName Scenes.blank_region) = "" ∧
  validateForm Scenes.blank_region !! "regionName" =
    Some (VStr "Region name is required") ∧
  trim (Scenes.nbsp +:+ " North West " +:+ Scenes.nbsp) = "North West".
Proof. vm_compute. by split_and!. Qed.

(** A preview that resolves with an empty body clears the stored
    results, and ResultsViewer is unmounted. *)
Example empty_preview_clears_results :
  let w := run previewed [ClickGenerate; Settle 0 (job_created "job-2");
                          WsMessage 1 frame_completed; Settle 0 ResolvedFalsy] in
  results previewed = Some preview_body ∧ results w = None ∧
  viewer w = S (viewer previewed).
Proof. vm_compute. by split_and!. Qed.

(** An export is outstanding when a preview with an empty body unmounts
    ResultsViewer; the next preview mounts a new instance, whose button is
    enabled, and a second export is issued next to the first.  The answer
    to the first then leaves the flag of the new instance set. *)
Example exports_of_two_instances :
  let w := run Scenes.exportable
             [ClickDownload "png" "300"; WsMessage 0 frame_completed;
              Settle 1 ResolvedFalsy; WsMessage 0 frame_completed;
              Settle 1 (Resolved Scenes.preview_of_job1);
              ClickDownload "png" "300"] in
  inflight w = [PostExport 0 (VStr "job-1") "png" 300;
                PostExport 1 (VStr "job-1") "png" 300] ∧
  viewer w = 1 ∧ isExporting w = true ∧ exports_of (viewer w) w = 1 ∧
  isExporting (step w (Settle 0 (Resolved ∅))) = true ∧
  downloads (step w (Settle 0 (Resolved ∅))) = ["Zimbabwe_analysis_2025-11-01.png"].
Proof. vm_compute. by split_and!. Qed.

Lemma exports_are_single_flight_witness :
  let w := run (initial_world zimbabwe)
             [ClickGenerate; Settle 0 (job_created "job-1");
              WsMessage 0 frame_completed;
              Settle 0 (Resolved Scenes.preview_of_job1);
              ClickDownload "png" "300"] in
  isExporting w = true ∧ exports_of (viewer w) w = 1 ∧
  step w (ClickDownload "png" "300") = w.
Proof.
  pose proof (proj1 (exports_are_single_flight zimbabwe
           [ClickGenerate; Settle 0 (job_created "job-1");
            WsMessage 0 frame_completed;
            Settle 0 (Resolved Scenes.preview_of_job1);
            ClickDownload "png" "300"])) as T.
  split; [vm_compute; reflexivity|]. split; [|vm_compute; reflexivity].
  vm_compute in T. vm_compute. exact T.
Defined.

(** The geometry error is displayed and an area is drawn.  The function
    of the last render hides the error; the function of the first render,
    which captured the empty errors, leaves it displayed. *)
Lemma geometry_change_and_its_error_witness :
  geometry_error_shown Scenes.area_missing = true ∧
  geometry_error_shown
    (handleGeometryChange (errors Scenes.area_missing) (Some ∅) Scenes.area_missing)
    = false ∧
  geometry_error_shown
    (handleGeometryChange (errors (initial_world Scenes.no_area)) (Some ∅)
       Scenes.area_missing) = true.
Proof.
  assert (geometry_error_shown Scenes.area_missing = true) as Hs
    by (vm_compute; reflexivity).
  split; [exact Hs|]. split.
  - destruct (geometry_change_and_its_error (errors Scenes.area_missing) (Some ∅)
                Scenes.area_missing) as (_ & _ & _ & _ & _ & _ & _ & Hh & _).
    apply Hh. vm_compute. reflexivity.
  - destruct (geometry_change_and_its_error (errors (initial_world Scenes.no_area))
                (Some ∅) Scenes.area_missing) as (_ & _ & _ & _ & _ & _ & _ & _ & Hk).
    destruct Hk as [_ Hk]; [vm_compute; reflexivity|]. rewrite Hk. exact Hs.
Defined.

Lemma unparseable_dates_pass_validation_witness :
  Date_parse (startDate Scenes.bad_date) = None ∧
  validateForm Scenes.bad_date !! "startDate" = None ∧
  validateForm Scenes.bad_date !! "endDate" = None.
Proof.
  assert (Date_parse (startDate Scenes.bad_date) = None) as Hp
    by (vm_compute; reflexivity).
  split; [exact Hp|].
  apply (unparseable_dates_pass_validation Scenes.bad_date).
  - discriminate.
  - discriminate.
  - left. exact Hp.
Defined.

Lemma end_before_start_message_witness :
  end_not_after_start Scenes.reversed ∧
  validateForm Scenes.reversed !! "endDate" =
    Some (VStr "End date must be after start date").
Proof.
  assert (end_not_after_start Scenes.reversed) as Hr.
  { unfold end_not_after_start. split_and!; [discriminate | discriminate |].
    exists 1765756800000%Z, 1761955200000%Z.
    split_and!; [vm_compute; reflexivity | vm_compute; reflexivity | lia]. }
  split; [exact Hr|].
  exact (end_before_start_message Scenes.reversed Hr).
Defined.

Lemma no_results_without_completion_witness :
  no_preview submitted ∧
  results (run submitted [WsMessage 0 frame_progress45; WsMessage 0 frame_failed]) = None.
Proof.
  assert (no_preview submitted) as Hn.
  { split; [vm_compute; reflexivity|]. vm_compute. constructor. }
  split; [exact Hn|].
  apply (no_results_without_completion submitted _ Hn).
  vm_compute; reflexivity.
Defined.


Lemma rejected_submission_witness :
  validateForm zimbabwe = ∅ ∧
  (let w' := run (initial_world zimbabwe)
               [ClickGenerate; Settle 0 (Rejected (VStr "Region too large"))] in
   jobStatus w' = idle_job ∧ sockets w' = [] ∧
   errors w' = {[ "submit" := VStr "Region too large" ]}).
Proof.
  assert (validateForm zimbabwe = ∅) as Hv by (vm_compute; reflexivity).
  split; [exact Hv|].
  destruct (rejected_submission (initial_world zimbabwe) (VStr "Region too large")
              Hv eq_refl) as (Hj & Hs & _ & _ & _ & He & _).
  split_and!; [exact Hj | exact Hs | exact He].
Defined.

Lemma every_click_submits_again_witness :
  validateForm zimbabwe = ∅ ∧
  outstanding_generates (run (initial_world zimbabwe) [ClickGenerate; ClickGenerate]) = 2.
Proof.
  assert (validateForm zimbabwe = ∅) as Hv by (vm_compute; reflexivity).
  split; [exact Hv|].
  exact (every_click_submits_again 2 (initial_world zimbabwe) Hv eq_refl).
Defined.

Lemma last_progress_frame_wins_witness :
  jobStatus (run (browser := Scenes.host) submitted
               [WsMessage 0 frame_progress45; WsMessage 0 Scenes.frame_progress80]) =
    jobStatus (run (browser := Scenes.host) submitted
                 [WsMessage 0 Scenes.frame_progress80]) ∧
  jobStatus (run (browser := Scenes.host) submitted
               [WsMessage 0 frame_progress45; WsMessage 0 Scenes.frame_progress80]) =
    mkJob (VStr "running") (VNum 80) (VStr "Rendering map") (VStr "job-1").
Proof.
  pose proof (last_progress_frame_wins (browser := Scenes.host) submitted 0
           (mkSocket (VStr "job-1") true) frame_progress45 Scenes.frame_progress80
           {[ "type" := VStr "progress_update"; "progress" := VNum 45;
              "message" := VStr "Loading satellite data" ]}
           {[ "type" := VStr "progress_update"; "progress" := VNum 80;
              "message" := VStr "Rendering map" ]}) as T.
  vm_compute in T. vm_compute. apply T; reflexivity.
Defined.

Lemma acknowledged_cancel_closes_the_socket_witness :
  wsRef submitted = Some 0 ∧
  (let w' := handleCancelJob_settled (Resolved ∅) submitted in
   jobStatus w' = idle_job ∧
   sockets w' !! 0 = Some (mkSocket (VStr "job-1") false) ∧
   S (open_sockets w') = open_sockets submitted ∧
   step w' (WsMessage 0 frame_completed) = w').
Proof.
  split; [vm_compute; reflexivity|].
  apply (acknowledged_cancel_closes_the_socket submitted 0
           (mkSocket (VStr "job-1") true) ∅ frame_completed).
  all: vm_compute; reflexivity.
Defined.

Lemma cancel_does_not_stop_polling_witness :
  timers polling !! 0 = Some (mkTimer (VStr "job-1") true) ∧
  (let w1 := handleCancelJob_settled (Resolved ∅) polling in
   let st : object := {[ "status" := VStr "running"; "progress" := VNum 60;
                         "message" := VStr "Rendering map" ]} in
   let w2 := run w1 [TimerTick 0; Settle (length (inflight w1)) (Resolved st)] in
   jobStatus w1 = idle_job ∧ timers w1 = timers polling ∧
   jobStatus w2 = mkJob (prop st "status") (prop st "progress") (prop st "message")
                        (VStr "job-1")).
Proof.
  assert (timers polling !! 0 = Some (mkTimer (VStr "job-1") true)) as Ht
    by (vm_compute; reflexivity).
  split; [exact Ht|].
  exact (cancel_does_not_stop_polling polling 0 _ ∅ _ Ht eq_refl).
Defined.

Lemma export_filename_has_no_white_space_witness :
  export_filename Scenes.spaced "png" = "Mashonaland_Central_analysis_2025-11-01.png" ∧
  no_space (export_filename Scenes.spaced "png") = true ∧
  export_filename Scenes.north_west "pdf" = "North_West_analysis_2025-11-01.pdf" ∧
  no_space (export_filename Scenes.north_west "pdf") = true.
Proof.
  split; [vm_compute; reflexivity|]. split.
  - exact (proj1 (export_filename_has_no_white_space Scenes.spaced "png"
                    eq_refl eq_refl)).
  - split; [vm_compute; reflexivity|].
    exact (proj1 (export_filename_has_no_white_space Scenes.north_west "pdf"
                    eq_refl eq_refl)).
Defined.

Lemma rendered_panel_is_never_red_witness :
  isRunning (jobStatus submitted) = true ∧
  getProgressColor (coerce := Scenes.coercion) (jobStatus submitted) ∈
    ["#f59e0b"; "#3b82f6"; "#10b981"].
Proof.
  assert (isRunning (jobStatus submitted) = true) as Hr by (vm_compute; reflexivity).
  split; [exact Hr|].
  exact (rendered_panel_is_never_red (coerce := Scenes.coercion) _ Hr).
Defined.

Lemma progress_frame_without_progress_witness :
  let j := jobStatus (step (browser := Scenes.host) submitted
                        (WsMessage 0 Scenes.frame_progress_bare)) in
  isRunning j = true ∧ progress j = VUndefined ∧
  getProgressColor (coerce := Scenes.coercion) j = "#10b981" ∧
  progress_stages (coerce := Scenes.coercion) j = replicate 5 "pending".
Proof.
  apply (progress_frame_without_progress (browser := Scenes.host)
           (coerce := Scenes.coercion) submitted 0 (mkSocket (VStr "job-1") true)
           Scenes.frame_progress_bare
           {[ "type" := VStr "progress_update"; "message" := VStr "Working" ]}).
  all: vm_compute; reflexivity.
Defined.
